(** * Admitto: the resource catalog, its filters and the similarity query

    A shallow embedding of the read path of the application:
    - the [resources] and [documents] tables of [database/schema.sql] and the
      constraint change of [database/seed_resources.sql];
    - the Supabase queries issued by the pages under [frontend/app];
    - the client-side helper [fieldIncludes] and the two derived filters of
      the scholarships page, and the tag blocks of [ScholarshipGrid];
    - the SQL function [match_documents], over what pgvector's operator
      [<=>] guarantees of its result;
    - the rows and the transaction of the two SQL scripts in full;
    - the deadline line of a scholarship card, with the date arithmetic of
      ECMAScript;
    - the sort PostgreSQL runs for ORDER BY under LIMIT, for the order of
      rows of equal [created_at] on the home page. *)

From Stdlib Require Import List String Ascii Bool Arith ZArith Lia.
From Stdlib Require Import DecimalString.
From Stdlib Require Import Floats.
From Stdlib Require Import Permutation Sorted.
From Stdlib Require Import Reals Lra.
Import ListNotations.

Set Warnings "-register-all".

Open Scope string_scope.
Open Scope list_scope.

(* ================================================================= *)
(** ** JavaScript values *)

(** What a value of TypeScript type [unknown] can be at run time once the
    PostgREST answer has been parsed: [JSON.parse] produces null, booleans,
    numbers (binary64), strings, arrays and objects; [undefined] is what a
    missing property or an optional chain on a nullish value yields. *)
Inductive JsValue : Type :=
| JUndefined
| JNull
| JBool (b : bool)
| JNumber (x : float)
| JString (s : string)
| JArray (items : list JsValue)
| JObject (fields : list (string * JsValue)).

Module Js.

(** [String.prototype.startsWith], used to define [includes]. *)
Fixpoint startsWith (s needle : string) {struct needle} : bool :=
  match needle, s with
  | EmptyString, _ => true
  | String _ _, EmptyString => false
  | String a needle', String b s' => Ascii.eqb a b && startsWith s' needle'
  end.

(** [String.prototype.includes(needle)]: [needle] occurs in [s] at some
    position.  Strings are sequences of bytes here; for well-formed text
    the occurrences are those of the UTF-16 form. *)
Fixpoint string_includes (s needle : string) : bool :=
  startsWith s needle
  || match s with
     | EmptyString => false
     | String _ s' => string_includes s' needle
     end.

(** SameValueZero against a string: only a string with the same contents
    is the same value. *)
Definition same_value_zero (v : JsValue) (needle : string) : bool :=
  match v with
  | JString s => String.eqb s needle
  | _ => false
  end.

(** [Array.prototype.includes(needle)] for a string [needle]. *)
Definition array_includes (items : list JsValue) (needle : string) : bool :=
  existsb (fun v => same_value_zero v needle) items.

(** Property lookup in a parsed object: [undefined] when the key is
    missing. *)
Fixpoint lookup (fields : list (string * JsValue)) (key : string) : JsValue :=
  match fields with
  | [] => JUndefined
  | (k, v) :: rest => if String.eqb k key then v else lookup rest key
  end.

(** [v?.level]: the optional chain short-circuits on [null] and
    [undefined]; primitives and arrays have no own property [level]. *)
Definition optional_level (v : JsValue) : JsValue :=
  match v with
  | JObject fields => lookup fields "level"
  | _ => JUndefined
  end.


End Js.

(* ================================================================= *)
(** ** Resources *)

(** A row of [resources] as the client receives it ([select('*')]).  The
    column [category] is TEXT; timestamps are instants on the time line. *)
Record Resource : Type := mkResource {
  id : string;
  title : string;
  description : option string;
  url : option string;
  category : string;
  country : option string;
  institution : option string;
  deadline : option string;
  eligibility : option string;
  amount : option string;
  tags : option (list string);
  last_updated : option Z;
  created_at : Z;
  metadata : JsValue
}.

(** The value of [s.tags] at run time: [null] for SQL NULL, else an array of
    strings. *)
Definition js_tags (s : Resource) : JsValue :=
  match tags s with
  | None => JNull
  | Some ts => JArray (map JString ts)
  end.

(* ================================================================= *)
(** ** The scholarships page: [fieldIncludes] and the derived filters *)

(** [scholarships/page.tsx], lines 40-44. *)
Definition fieldIncludes (field : JsValue) (needle : string) : bool :=
  match field with
  | JString s => Js.string_includes s needle
  | JArray items => Js.array_includes items needle
  | _ => false
  end.

(** The predicate under [scholarships.filter] at lines 46-48. *)
Definition is_undergrad (s : Resource) : bool :=
  fieldIncludes (Js.optional_level (metadata s)) "Undergraduate"
  || fieldIncludes (js_tags s) "undergraduate".

(** The predicate under [scholarships.filter] at lines 49-52. *)
Definition is_graduate (s : Resource) : bool :=
  fieldIncludes (Js.optional_level (metadata s)) "Masters"
  || fieldIncludes (Js.optional_level (metadata s)) "PhD"
  || fieldIncludes (js_tags s) "graduate"
  || fieldIncludes (js_tags s) "doctoral".

Definition undergrad (scholarships : list Resource) : list Resource :=
  filter is_undergrad scholarships.

Definition graduate (scholarships : list Resource) : list Resource :=
  filter is_graduate scholarships.

(** The shape both filters share: a needle looked up in [metadata.level],
    or a needle looked up in [tags]. *)
Definition level_or_tag (levelNeedle tagNeedle : string) (s : Resource) : bool :=
  fieldIncludes (Js.optional_level (metadata s)) levelNeedle
  || fieldIncludes (js_tags s) tagNeedle.

(* ================================================================= *)
(** ** The scholarships page: the tag blocks of [ScholarshipGrid] *)








(* ================================================================= *)
(** ** The [documents] table and pgvector's cosine distance *)

(** A [float8] value: a finite number, an infinity or NaN. *)
Inductive float8 : Type :=
| Fin (x : R)
| PosInf
| NegInf
| NaN.

Module Float8.

(** PostgreSQL's ordering of [float8]: -Infinity, the finite numbers,
    Infinity, then NaN, which equals NaN and is greater than every other
    value. *)
Definition le (a b : float8) : bool :=
  match a, b with
  | _, NaN => true
  | NaN, _ => false
  | _, PosInf => true
  | PosInf, _ => false
  | NegInf, _ => true
  | Fin _, NegInf => false
  | Fin x, Fin y => if Rle_dec x y then true else false
  end.

(** The SQL operator [>]. *)
Definition gt (a b : float8) : bool := negb (le a b).

End Float8.

(** A [VECTOR] value: its coordinates. *)
Definition vector : Type := list R.

(** The two numeric operations [match_documents] uses and the repository
    does not define: pgvector's operator [<=>] and the [float8] subtraction
    of PostgreSQL.  pgvector accumulates the inner product and the two
    squared norms in single precision, in an order the build chooses, divides
    in double precision, keeps the quotient between -1 and 1 and subtracts it
    from 1.  What holds of every such computation is all that is assumed:
    - the distance of two vectors of the same dimension is NaN or lies in
      [0,2] (NaN is what the quotient is when it is 0/0 or inf/inf: for a
      vector of zeros, and also for vectors whose squared norm overflows or
      underflows in single precision);
    - it is NaN when one of the vectors has all coordinates zero;
    - [1 - d] is NaN for NaN and lies in [-1,1] for [d] in [0,2].
    Vectors of different dimensions are not in the domain: [<=>] raises an
    error on them, see [match_documents]. *)
Class Numerics : Type := {
  cosine_distance : vector -> vector -> float8;
  one_minus : float8 -> float8;
  cosine_distance_range : forall a b : vector,
      List.length a = List.length b ->
      match cosine_distance a b with
      | Fin d => (0 <= d <= 2)%R
      | NaN => True
      | PosInf | NegInf => False
      end;
  cosine_distance_zeros : forall a b : vector,
      List.length a = List.length b ->
      Forall (fun x => x = 0%R) a ->
      cosine_distance a b = NaN /\ cosine_distance b a = NaN;
  one_minus_NaN : one_minus NaN = NaN;
  one_minus_range : forall d : R,
      (0 <= d <= 2)%R ->
      exists s, one_minus (Fin d) = Fin s /\ (-1 <= s <= 1)%R
}.

(** The inner product in exact arithmetic. *)
Fixpoint dot (a b : vector) : R :=
  match a, b with
  | x :: a', y :: b' => x * y + dot a' b'
  | _, _ => 0
  end%R.

(** The distance in exact arithmetic: one minus the cosine of the angle
    between the two vectors, [dot a b / sqrt (|a|^2 * |b|^2)]; the quotient
    is 0/0, hence NaN, when one of the vectors has norm zero.  pgvector's
    result is this one wherever the floating-point computation is exact, as
    it is for vectors with coordinates 0, 1 and -1 of which at most one is
    not zero. *)
Definition exact_cosine_distance (a b : vector) : float8 :=
  if Req_dec_T (dot a a * dot b b) 0
  then NaN
  else Fin (1 - dot a b / sqrt (dot a a * dot b b)).

Definition exact_one_minus (d : float8) : float8 :=
  match d with
  | Fin x => Fin (1 - x)
  | PosInf => NegInf
  | NegInf => PosInf
  | NaN => NaN
  end.

(** A row of [documents] ([schema.sql], lines 23-28); [embedding] is
    nullable. *)
Record Document : Type := mkDocument {
  doc_id : Z;
  doc_content : string;
  doc_metadata : JsValue;
  embedding : option vector
}.

(** A row of the table [match_documents] returns. *)
Record Match : Type := mkMatch {
  match_id : Z;
  match_content : string;
  match_metadata : JsValue;
  similarity : float8
}.

Section Similarity.

Context {N : Numerics}.

(** [1 - (documents.embedding <=> query_embedding)]; SQL NULL when the
    embedding is NULL. *)
Definition similarity_of (query_embedding : vector) (d : Document) : option float8 :=
  match embedding d with
  | None => None
  | Some e => Some (one_minus (cosine_distance e query_embedding))
  end.

(** The WHERE clause: a NULL condition does not select the row. *)
Definition qualifies (query_embedding : vector) (match_threshold : float8)
           (d : Document) : bool :=
  match similarity_of query_embedding d with
  | None => false
  | Some s => Float8.gt s match_threshold
  end.

(** The SELECT list, for a row that passed the WHERE clause. *)
Definition to_match (query_embedding : vector) (d : Document) : Match :=
  {| match_id := doc_id d;
     match_content := doc_content d;
     match_metadata := doc_metadata d;
     similarity := match similarity_of query_embedding d with
                   | Some s => s
                   | None => NaN
                   end |}.

(** [<=>] raises "different vector dimensions" when the stored embedding and
    the query vector differ in dimension; it is not called for a NULL
    embedding. *)
Definition different_dimensions (query_embedding : vector) (d : Document) : bool :=
  match embedding d with
  | Some e => negb (List.length e =? List.length query_embedding)%nat
  | None => false
  end.

End Similarity.

(* ================================================================= *)
(** ** The database: schema, constraint and writes *)

(** The list of the CHECK constraint in [schema.sql], line 10. *)
Definition schema_categories : list string :=
  ["scholarship"; "visa"; "job"; "accommodation"; "general"].

(** The list of the CHECK constraint [seed_resources.sql] installs,
    line 7. *)
Definition seed_categories : list string :=
  ["scholarship"; "visa"; "job"; "accommodation"; "general"; "university"].

(** The union type of [Resource.category] in the client ([lib/supabase]). *)
Definition Resource_category : list string :=
  ["scholarship"; "visa"; "job"; "accommodation"; "general"].

(** [category IN (...)]. *)
Definition category_in (allowed : list string) (c : string) : bool :=
  existsb (String.eqb c) allowed.

(** The state of the database: the constraint [resources_category_check]
    when the table has one, the rows of [resources] in insertion order, and
    the rows of [documents]. *)
Record Database : Type := mkDatabase {
  resources_category_check : option (list string);
  resources : list Resource;
  documents : list Document
}.

(** [CREATE TABLE resources] and [CREATE TABLE documents] of [schema.sql]. *)
Definition create_tables : Database :=
  {| resources_category_check := Some schema_categories;
     resources := [];
     documents := [] |}.

(** The columns an INSERT may give.  For a column without default, [None]
    is a column left out or given as NULL: NULL is stored either way.  The
    columns [country] and [last_updated] have a default: for them [None] is
    a column left out (for [last_updated], also one given as [NOW()], as the
    seed script does), which stores the default, and [Some None] is an
    explicit NULL, which stores NULL.  The types of the columns are not
    modelled: a [deadline] is taken to be a date in the form [YYYY-MM-DD]
    that the DATE column accepts, which is the form in which it is stored
    and returned; the table refuses other values, and this model does
    not. *)
Record NewResource : Type := mkNewResource {
  new_title : option string;
  new_description : option string;
  new_url : option string;
  new_category : option string;
  new_country : option (option string);
  new_institution : option string;
  new_deadline : option string;
  new_eligibility : option string;
  new_amount : option string;
  new_tags : option (list string);
  new_metadata : JsValue;
  new_last_updated : option (option Z)
}.

(** Whether the table accepts a [category] value: NOT NULL, and the CHECK
    constraint when there is one. *)
Definition category_accepted (db : Database) (c : option string) : bool :=
  match c with
  | None => false
  | Some c =>
      match resources_category_check db with
      | None => true
      | Some allowed => category_in allowed c
      end
  end.

(** [INSERT INTO resources]: [uuid] is what [gen_random_uuid()] draws and
    [now] what [NOW()] returns.  [None] is a rejected statement. *)
Definition insert_resource (uuid : string) (now : Z) (v : NewResource)
           (db : Database) : option Database :=
  match new_title v, new_category v with
  | Some t, Some c =>
      if category_accepted db (Some c)
         && negb (existsb (fun r => String.eqb (id r) uuid) (resources db))
      then Some {| resources_category_check := resources_category_check db;
                   resources :=
                     resources db ++
                     [ {| id := uuid;
                          title := t;
                          description := new_description v;
                          url := new_url v;
                          category := c;
                          country := match new_country v with
                                     | Some k => k
                                     | None => Some "Canada"
                                     end;
                          institution := new_institution v;
                          deadline := new_deadline v;
                          eligibility := new_eligibility v;
                          amount := new_amount v;
                          tags := new_tags v;
                          last_updated := match new_last_updated v with
                                          | Some u => u
                                          | None => Some now
                                          end;
                          created_at := now;
                          metadata := new_metadata v |} ];
                   documents := documents db |}
      else None
  | _, _ => None
  end.

(** [ALTER TABLE resources DROP CONSTRAINT IF EXISTS
    resources_category_check]. *)
Definition drop_constraint_if_exists (db : Database) : Database :=
  {| resources_category_check := None;
     resources := resources db;
     documents := documents db |}.

(** [ALTER TABLE resources ADD CONSTRAINT resources_category_check CHECK
    (category IN ...)]: refused when a constraint of that name exists or when
    a stored row violates the new constraint. *)
Definition add_constraint (allowed : list string) (db : Database) : option Database :=
  match resources_category_check db with
  | Some _ => None
  | None =>
      if forallb (fun r => category_in allowed (category r)) (resources db)
      then Some {| resources_category_check := Some allowed;
                   resources := resources db;
                   documents := documents db |}
      else None
  end.

(** Step 1 of [seed_resources.sql], lines 4-7.  When ADD CONSTRAINT is
    refused the constraint stays dropped. *)
Definition seed_step1 (db : Database) : Database :=
  match add_constraint seed_categories (drop_constraint_if_exists db) with
  | Some db' => db'
  | None => drop_constraint_if_exists db
  end.

(** The writes the two scripts issue against [resources]. *)
Inductive Write : Type :=
| Insert (uuid : string) (now : Z) (v : NewResource)
| SeedStep1.

(** A rejected INSERT leaves the database as it was. *)
Definition apply_write (db : Database) (w : Write) : Database :=
  match w with
  | Insert uuid now v =>
      match insert_resource uuid now v db with
      | Some db' => db'
      | None => db
      end
  | SeedStep1 => seed_step1 db
  end.

Definition apply_writes (ws : list Write) (db : Database) : Database :=
  fold_left apply_write ws db.

(** The first of the six rows [seed_resources.sql] inserts with category
    ['university'] (lines 184-194). *)
Definition seed_university_of_toronto : NewResource :=
  {| new_title := Some "University of Toronto - International Student Programs";
     new_description := Some "Canada's #1 ranked university offering 700+ undergraduate and 200+ graduate programs. Comprehensive support through Centre for International Experience.";
     new_url := Some "https://www.utoronto.ca/";
     new_category := Some "university";
     new_country := Some (Some "Canada");
     new_institution := Some "University of Toronto";
     new_deadline := None;
     new_eligibility := None;
     new_amount := None;
     new_tags := Some ["top-ranked"; "research-intensive"; "diverse-programs"];
     new_metadata :=
       JObject [("ranking", JString "1st in Canada, Top 25 globally");
                ("international_students", JString "25,000+");
                ("popular_programs",
                 JArray [JString "Computer Science"; JString "Engineering";
                         JString "Business"; JString "Life Sciences"]);
                ("location", JString "Toronto, Ontario");
                ("tuition_range", JString "$45,000-$58,000 CAD per year");
                ("application_deadline", JString "2026-01-15");
                ("source", JString "official");
                ("last_verified", JString "2025-11-16")];
     new_last_updated := None |}.

(* ================================================================= *)
(** ** ORDER BY *)

(** A sort key: a type with a decidable total preorder. *)
Class SortKey (K : Type) : Type := {
  key_le : K -> K -> bool;
  key_le_total : forall a b, key_le a b = true \/ key_le b a = true;
  key_le_trans : forall a b c,
      key_le a b = true -> key_le b c = true -> key_le a c = true
}.

(** [l] is in the order ORDER BY [key] DESC asks for. *)
Definition descending {A K : Type} `{SortKey K} (key : A -> K) (l : list A) : Prop :=
  StronglySorted (fun x y => key_le (key y) (key x) = true) l.

(** What SQL promises of [ORDER BY key DESC]: the same rows, in descending
    order of the key.  Rows with equal keys are returned in an order that
    depends on the implementation and on the plan: the sort is told the
    LIMIT of the query ([bound], [None] without LIMIT), and PostgreSQL sorts
    differently with one.  Of the list returned, a query with LIMIT [n]
    keeps the first [n] rows.  A [SqlEngine] is one such implementation.  As
    a function it answers alike whenever it is given the same rows in the
    same order with the same bound: this is how a sort algorithm behaves, it
    holds of the model by construction and is not a property proved here. *)
Class SqlEngine : Type := {
  order_by_desc : forall (A K : Type), SortKey K -> option nat -> (A -> K) ->
                                       list A -> list A;
  order_by_desc_perm : forall A K (S : SortKey K) bound (key : A -> K) l,
      Permutation (order_by_desc A K S bound key l) l;
  order_by_desc_sorted : forall A K (S : SortKey K) bound (key : A -> K) l,
      descending key (order_by_desc A K S bound key l)
}.

Arguments order_by_desc {_ A K _} bound key l.

(** Insertion of a row into a sorted list; [past kx ky] tells whether a row
    of key [kx] goes behind a row of key [ky]. *)
Fixpoint insert_row {A K : Type} (past : K -> K -> bool) (key : A -> K)
         (x : A) (l : list A) : list A :=
  match l with
  | [] => [x]
  | y :: l' =>
      if past (key x) (key y) then y :: insert_row past key x l' else x :: l
  end.

Definition insertion_sort {A K : Type} (past : K -> K -> bool) (key : A -> K)
           (l : list A) : list A :=
  fold_right (insert_row past key) [] l.

(** A row goes behind the rows of a strictly greater key only: rows of equal
    keys keep the order of the input. *)
Definition past_greater {K : Type} `{SortKey K} (kx ky : K) : bool :=
  negb (key_le ky kx).


(* ================================================================= *)
(** ** The Supabase queries of the pages *)

(** A query on [resources] as the query builder accumulates it. *)
Record Query : Type := mkQuery {
  where_category : option string;
  order_created_at_desc : bool;
  limit_rows : option nat
}.

Module Builder.

(** [supabase.from('resources').select('*')]. *)
Definition select_all : Query :=
  {| where_category := None; order_created_at_desc := false; limit_rows := None |}.

(** [.eq('category', c)]. *)
Definition eq_category (c : string) (q : Query) : Query :=
  {| where_category := Some c;
     order_created_at_desc := order_created_at_desc q;
     limit_rows := limit_rows q |}.

(** [.order('created_at', { ascending: false })]. *)
Definition order_created_at (q : Query) : Query :=
  {| where_category := where_category q;
     order_created_at_desc := true;
     limit_rows := limit_rows q |}.

(** [.limit(n)]. *)
Definition limit (n : nat) (q : Query) : Query :=
  {| where_category := where_category q;
     order_created_at_desc := order_created_at_desc q;
     limit_rows := Some n |}.

End Builder.

(** [scholarships/page.tsx], lines 22-26. *)
Definition scholarships_query : Query :=
  Builder.order_created_at (Builder.eq_category "scholarship" Builder.select_all).

(** [jobs/page.tsx], lines 19-23. *)
Definition jobs_query : Query :=
  Builder.order_created_at (Builder.eq_category "job" Builder.select_all).

(** The visa guide page, lines 19-23. *)
Definition visa_query : Query :=
  Builder.order_created_at (Builder.eq_category "visa" Builder.select_all).

(** [page.tsx], lines 6-10. *)
Definition recent_query : Query :=
  Builder.limit 6 (Builder.order_created_at Builder.select_all).

(** The query the pages instantiate: a category or none, newest first, a
    limit or none. *)
Definition listByCategory (c : option string) (limit : option nat) : Query :=
  {| where_category := c; order_created_at_desc := true; limit_rows := limit |}.

(** [created_at] values are compared as instants. *)
#[export] Instance Z_key : SortKey Z.
Proof.
  refine {| key_le := Z.leb |}.
  - intros a b. rewrite !Z.leb_le. lia.
  - intros a b c. rewrite !Z.leb_le. lia.
Defined.

Section Select.

Context {E : SqlEngine}.

(** The SELECT the query stands for: WHERE, then ORDER BY, then LIMIT. *)
Definition select_resources (db : Database) (q : Query) : list Resource :=
  let selected :=
    match where_category q with
    | Some c => filter (fun r => String.eqb (category r) c) (resources db)
    | None => resources db
    end in
  let ordered :=
    if order_created_at_desc q
    then order_by_desc (limit_rows q) created_at selected
    else selected in
  match limit_rows q with
  | Some n => firstn n ordered
  | None => ordered
  end.

End Select.

(** The statements that reach the database: the reads of the pages and the
    writes of the scripts. *)
Inductive Statement : Type :=
| Select (q : Query)
| Modify (w : Write).

(** What the client gets from [await query]: [data] and no error, or an
    error and no data. *)
Record PostgrestError : Type := mkPostgrestError {
  message : string;
  details : string;
  hint : string;
  code : string
}.

Inductive PostgrestResponse : Type :=
| Success (data : list Resource)
| Failure (error : PostgrestError).

(** The state of a page component: the list held by [useState], initially
    [[]], and what was written with [console.error]. *)
Record Page : Type := mkPage {
  shown : list Resource;
  console : list (string * PostgrestError)
}.

Definition mounted : Page := {| shown := []; console := [] |}.

Section Pages.

Context {E : SqlEngine}.

(** A statement run against the database: the new state and the rows
    returned. *)
Definition execute (db : Database) (st : Statement) : Database * list Resource :=
  match st with
  | Select q => (db, select_resources db q)
  | Modify w => (apply_write db w, [])
  end.


(** [await] on a query: [outage] is the error of a store that cannot be
    reached or of a query that fails, when there is one. *)
Definition request (outage : option PostgrestError) (db : Database) (q : Query)
  : PostgrestResponse :=
  match outage with
  | Some e => Failure e
  | None => Success (snd (execute db (Select q)))
  end.

(** [scholarships/page.tsx], lines 21-34. *)
Definition fetchScholarships (outage : option PostgrestError) (db : Database)
           (p : Page) : Page :=
  match request outage db scholarships_query with
  | Failure error =>
      {| shown := shown p;
         console := console p ++ [("Error fetching scholarships:", error)] |}
  | Success data => {| shown := data; console := console p |}
  end.

(** [jobs/page.tsx], lines 18-26: [(data as Resource[]) || []]. *)
Definition fetchJobResources (outage : option PostgrestError) (db : Database)
           (p : Page) : Page :=
  match request outage db jobs_query with
  | Failure _ => {| shown := []; console := console p |}
  | Success data => {| shown := data; console := console p |}
  end.

(** The visa guide page, lines 18-26. *)
Definition fetchVisaResources (outage : option PostgrestError) (db : Database)
           (p : Page) : Page :=
  match request outage db visa_query with
  | Failure _ => {| shown := []; console := console p |}
  | Success data => {| shown := data; console := console p |}
  end.

(** [page.tsx], lines 5-18; the returned array is what [Home] shows. *)
Definition getRecentResources (outage : option PostgrestError) (db : Database)
           (p : Page) : Page :=
  match request outage db recent_query with
  | Failure error =>
      {| shown := [];
         console := console p ++ [("Error fetching resources:", error)] |}
  | Success data => {| shown := data; console := console p |}
  end.

End Pages.

(* ================================================================= *)
(** ** The function [match_documents] *)

(** [similarity] values are compared as PostgreSQL compares [float8]. *)
#[export] Instance float8_key : SortKey float8.
Proof.
  refine {| key_le := Float8.le |}.
  - intros [x| | |] [y| | |]; simpl; auto.
    destruct (Rle_dec x y), (Rle_dec y x); auto. lra.
  - intros [x| | |] [y| | |] [z| | |]; simpl; auto; try discriminate.
    destruct (Rle_dec x y), (Rle_dec y z), (Rle_dec x z); auto; try discriminate.
    lra.
Defined.

Section MatchDocuments.

Context {E : SqlEngine} {N : Numerics}.

(** [schema.sql], lines 40-62, called as [SELECT * FROM match_documents(...)];
    [None] in an argument is SQL NULL, [None] as result is an error.
    - LIMIT is evaluated first: a negative count is an error, and with count
      0 no row is read.
    - A NULL vector or a NULL threshold makes the WHERE condition NULL for
      every row: no row is returned.
    - Otherwise the condition is evaluated on every row of the table, and
      [<=>] raises an error on the first embedding of another dimension than
      the query vector (the declared [VECTOR(1536)] of the parameter does not
      restrict the argument).
    - A NULL count is no limit. *)
Definition match_documents (db : Database) (query_embedding : option vector)
           (match_threshold : option float8) (match_count : option Z)
  : option (list Match) :=
  if match match_count with Some n => (n <? 0)%Z | None => false end
  then None
  else if match match_count with Some n => (n =? 0)%Z | None => false end
  then Some []
  else
    match query_embedding, match_threshold with
    | Some q, Some t =>
        if existsb (different_dimensions q) (documents db) then None
        else
          let bound := option_map Z.to_nat match_count in
          let ordered :=
            order_by_desc bound similarity
              (map (to_match q) (filter (qualifies q t) (documents db))) in
          Some match bound with
               | Some n => firstn n ordered
               | None => ordered
               end
    | _, _ => Some []
    end.

End MatchDocuments.

(* ================================================================= *)
(** ** Sample rows *)

(** The first two rows [seed_resources.sql] inserts (lines 30-57). *)
Definition seed_vanier : NewResource :=
  {| new_title := Some "Vanier Canada Graduate Scholarships (Vanier CGS)";
     new_description := Some "Prestigious doctoral scholarship recognizing academic excellence, research potential, and leadership. Covers all expenses for PhD studies at Canadian universities.";
     new_url := Some "https://vanier.gc.ca/en/home-accueil.html";
     new_category := Some "scholarship";
     new_country := Some (Some "Canada");
     new_institution := Some "Government of Canada";
     new_deadline := Some "2025-10-30";
     new_eligibility := Some "Canadian citizens, permanent residents, and international students pursuing first doctoral degree. Must be nominated by Canadian institution.";
     new_amount := Some "$50,000 CAD per year";
     new_tags := Some ["doctoral"; "fully-funded"; "government"; "prestigious"; "research"];
     new_metadata :=
       JObject [("duration", JString "3 years");
                ("total_awards", JString "166 annually");
                ("application_process",
                 JString "Nomination through Canadian university, not direct application");
                ("source", JString "official");
                ("level", JString "Doctoral (PhD)");
                ("last_verified", JString "2025-11-16")];
     new_last_updated := None |}.

Definition seed_pearson : NewResource :=
  {| new_title := Some "Lester B. Pearson International Scholarship";
     new_description := Some "Full-ride undergraduate scholarship at University of Toronto for exceptional international students demonstrating leadership and academic achievement.";
     new_url := Some "https://future.utoronto.ca/pearson/";
     new_category := Some "scholarship";
     new_country := Some (Some "Canada");
     new_institution := Some "University of Toronto";
     new_deadline := Some "2026-01-15";
     new_eligibility := Some "International students entering first year from secondary school. Must be nominated by school. GPA 95%+";
     new_amount := Some "Full tuition + books + residence + incidental fees";
     new_tags := Some ["undergraduate"; "fully-funded"; "leadership"; "competitive"];
     new_metadata :=
       JObject [("duration", JString "4 years");
                ("total_awards", JString "37 scholarships annually");
                ("source", JString "official");
                ("level", JString "Undergraduate");
                ("last_verified", JString "2025-11-16")];
     new_last_updated := None |}.

(** The database after step 1 of the seed script and these two inserts.
    Both run in the transaction the script opens at line 13, and [NOW()] is
    the start time of the transaction: the rows get the same [created_at]. *)
Definition two_scholarships : Database :=
  apply_writes
    [SeedStep1;
     Insert "7d0a1c5e-0000-4000-8000-000000000001" 1763251200 seed_vanier;
     Insert "7d0a1c5e-0000-4000-8000-000000000002" 1763251200 seed_pearson]
    create_tables.

(** The stored form of a seed row, for the examples below. *)
Definition stored (uuid : string) (v : NewResource) : list Resource :=
  match insert_resource uuid 1763251200 v (seed_step1 create_tables) with
  | Some db => resources db
  | None => []
  end.

(** A scholarship as the page receives it, with the given [metadata] and
    [tags]. *)
Definition scholarship_with (metadata : JsValue) (tags : option (list string))
  : Resource :=
  {| id := "7d0a1c5e-0000-4000-8000-000000000201";
     title := "Graduate Entrance Award";
     description := None;
     url := None;
     category := "scholarship";
     country := Some "Canada";
     institution := None;
     deadline := None;
     eligibility := None;
     amount := None;
     tags := tags;
     last_updated := Some 1763251200%Z;
     created_at := 1763251200;
     metadata := metadata |}.

(** A vector of 1536 coordinates along the first axis. *)
Definition axis (x : R) : vector := x :: repeat 0%R 1535.

(** A [documents] table with one row, whose embedding points away from
    [axis 1]. *)
Definition opposite_document : Document :=
  {| doc_id := 1;
     doc_content := "Study permit processing times";
     doc_metadata := JNull;
     embedding := Some (axis (-1)) |}.

Definition opposite_db : Database :=
  {| resources_category_check := Some schema_categories;
     resources := [];
     documents := [opposite_document] |}.

(** A [documents] table with one row, whose embedding is the vector of 1536
    zeros. *)
Definition zero_document : Document :=
  {| doc_id := 2;
     doc_content := "Work permit after graduation";
     doc_metadata := JNull;
     embedding := Some (repeat 0%R 1536) |}.

Definition zero_db : Database :=
  {| resources_category_check := Some schema_categories;
     resources := [];
     documents := [zero_document] |}.

(* ================================================================= *)
(** ** Predicates the properties are stated with *)

(** [needle] occurs in [s] as a contiguous substring. *)
Definition occurs_in (needle s : string) : Prop :=
  exists pre post, s = (pre ++ needle ++ post)%string.

(** [v] is the value of the property [key] of the parsed object [fields]:
    the binding of [key] in it (a parsed object has each key once; the first
    binding, should the list repeat one). *)
Definition bound_to (fields : list (string * JsValue)) (key : string)
           (v : JsValue) : Prop :=
  exists before after,
    fields = before ++ (key, v) :: after /\ ~ In key (map fst before).

(** [s.metadata] is an object and its property [level] is [v]. *)
Definition metadata_level (s : Resource) (v : JsValue) : Prop :=
  exists fields, metadata s = JObject fields /\ bound_to fields "level" v.

(** [s.metadata] has no property [level] to look into: it is not an object
    ([null], a scalar, an array), or an object without the key, or the
    property is neither a string nor an array. *)
Definition no_usable_level (s : Resource) : Prop :=
  (forall fields, metadata s <> JObject fields)
  \/ (exists fields, metadata s = JObject fields /\ ~ In "level" (map fst fields))
  \/ (exists v, metadata_level s v
                /\ (forall str, v <> JString str)
                /\ (forall items, v <> JArray items)).


(** [x] is a number strictly greater than [t]. *)
Definition number_above (x t : float8) : Prop :=
  exists a, x = Fin a
            /\ match t with
               | Fin b => (b < a)%R
               | NegInf => True
               | PosInf | NaN => False
               end.

(** [l1] is [l2] with some rows left out: the rows of [l1] are rows of
    [l2], in the order they have in [l2]. *)
Inductive subsequence {A : Type} : list A -> list A -> Prop :=
| subsequence_nil : subsequence [] []
| subsequence_keep (x : A) (l1 l2 : list A) :
    subsequence l1 l2 -> subsequence (x :: l1) (x :: l2)
| subsequence_drop (x : A) (l1 l2 : list A) :
    subsequence l1 l2 -> subsequence l1 (x :: l2).

(** Newest first: every row is at least as recent as the rows after it. *)
Definition newest_first (l : list Resource) : Prop :=
  StronglySorted (fun x y => (created_at y <= created_at x)%Z) l.

(** The place of the row of id [uuid] in the table: rows are stored in
    the order of their insertion. *)
Fixpoint place (uuid : string) (stored : list Resource) : nat :=
  match stored with
  | [] => 0
  | r :: stored' => if String.eqb (id r) uuid then 0 else S (place uuid stored')
  end.

(** Rows of equal [created_at] appear in [result] in the order of their
    insertion into the table. *)
Definition ties_in_insertion_order (stored result : list Resource) : Prop :=
  forall (i j : nat) (x y : Resource),
    nth_error result i = Some x ->
    nth_error result j = Some y ->
    (i < j)%nat ->
    created_at x = created_at y ->
    (place (id x) stored < place (id y) stored)%nat.

Definition is_seed_step1 (w : Write) : bool :=
  match w with
  | SeedStep1 => true
  | Insert _ _ _ => false
  end.

(** Whether step 1 of the seed script is among the writes. *)
Definition seeded (ws : list Write) : bool := existsb is_seed_step1 ws.

(** The constraint in force: the list of [schema.sql] until step 1 of the
    seed script has run, the list of the seed script from then on. *)
Definition categories_in_force (after_seed : bool) : list string :=
  if after_seed then seed_categories else schema_categories.

(** What every reachable state satisfies. *)
Definition well_formed (after_seed : bool) (db : Database) : Prop :=
  Forall (fun r => category_in seed_categories (category r) = true) (resources db)
  /\ resources_category_check db = Some (categories_in_force after_seed).

(* ================================================================= *)
(** * Properties *)

(* ================================================================= *)
(** ** A stable implementation of ORDER BY *)

Section InsertionSort.

Context {A K : Type} {S : SortKey K}.
Variable past : K -> K -> bool.
Variable key : A -> K.

(** The two facts about [past] that make insertion keep a list sorted. *)
Hypothesis past_true : forall kx ky, past kx ky = true -> key_le kx ky = true.
Hypothesis past_false : forall kx ky, past kx ky = false -> key_le ky kx = true.

Lemma insert_row_perm (x : A) (l : list A) :
  Permutation (insert_row past key x l) (x :: l).
Proof.
  induction l as [|y l IH]; simpl.
  - reflexivity.
  - destruct (past (key x) (key y)).
    + rewrite IH. apply perm_swap.
    + reflexivity.
Qed.

Lemma insertion_sort_perm (l : list A) :
  Permutation (insertion_sort past key l) l.
Proof.
  induction l as [|x l IH]; simpl.
  - reflexivity.
  - rewrite insert_row_perm. now constructor.
Qed.

Lemma insert_row_sorted (x : A) (l : list A) :
  descending key l -> descending key (insert_row past key x l).
Proof.
  unfold descending.
  induction l as [|y l IH]; simpl; intros Hs.
  - repeat constructor.
  - inversion Hs as [|? ? Hl Hy]; subst.
    destruct (past (key x) (key y)) eqn:Hp.
    + constructor; [now apply IH|].
      apply Permutation_Forall with (x :: l).
      * symmetry. apply insert_row_perm.
      * constructor; [now apply past_true | exact Hy].
    + constructor; [exact Hs|].
      constructor; [now apply past_false|].
      apply Forall_forall. intros z Hz.
      rewrite Forall_forall in Hy.
      apply key_le_trans with (b := key y); [now apply Hy | now apply past_false].
Qed.

Lemma insertion_sort_sorted (l : list A) :
  descending key (insertion_sort past key l).
Proof.
  induction l as [|x l IH]; simpl.
  - constructor.
  - now apply insert_row_sorted.
Qed.

End InsertionSort.

Lemma past_greater_true {K : Type} {S : SortKey K} (kx ky : K) :
  past_greater kx ky = true -> key_le kx ky = true.
Proof.
  unfold past_greater. intros H.
  destruct (key_le_total kx ky) as [H1|H1]; [exact H1|].
  rewrite H1 in H. discriminate.
Qed.

Lemma past_greater_false {K : Type} {S : SortKey K} (kx ky : K) :
  past_greater kx ky = false -> key_le ky kx = true.
Proof.
  unfold past_greater. intros H. now apply negb_false_iff in H.
Qed.

(** An engine whose sort is stable, with or without LIMIT. *)
Definition stable_engine : SqlEngine :=
  {| order_by_desc := fun A K S bound key l => insertion_sort past_greater key l;
     order_by_desc_perm := fun A K S bound key l =>
       insertion_sort_perm past_greater key l;
     order_by_desc_sorted := fun A K S bound key l =>
       insertion_sort_sorted past_greater key
         past_greater_true past_greater_false l |}.

(* ================================================================= *)
(** ** [fieldIncludes] and the filters of the scholarships page *)

Lemma startsWith_spec (needle s : string) :
  Js.startsWith s needle = true <-> exists post, s = (needle ++ post)%string.
Proof.
  revert s. induction needle as [|a needle IH]; intros s; simpl.
  - split; [intros _; now exists s | reflexivity].
  - destruct s as [|b s].
    + split; [discriminate | intros [post H]; discriminate].
    + rewrite andb_true_iff, Ascii.eqb_eq, IH. split.
      * intros [-> [post ->]]. now exists post.
      * intros [post H]. injection H as -> ->. split; [reflexivity | now exists post].
Qed.

Lemma string_includes_spec (needle s : string) :
  Js.string_includes s needle = true <-> occurs_in needle s.
Proof.
  unfold occurs_in. induction s as [|b s IH]; simpl.
  - rewrite orb_false_r, startsWith_spec. split.
    + intros [post H]. now exists "", post.
    + intros [pre [post H]]. destruct pre; [|discriminate]. now exists post.
  - rewrite orb_true_iff, IH, startsWith_spec. split.
    + intros [[post H] | [pre [post H]]].
      * now exists "", post.
      * exists (String b pre), post. simpl. now rewrite H.
    + intros [pre [post H]]. destruct pre as [|c pre]; simpl in H.
      * left. now exists post.
      * right. injection H as -> ->. now exists pre, post.
Qed.

Lemma array_includes_spec (items : list JsValue) (needle : string) :
  Js.array_includes items needle = true <-> In (JString needle) items.
Proof.
  unfold Js.array_includes. rewrite existsb_exists. split.
  - intros [v [Hv Hs]]. destruct v; simpl in Hs; try discriminate.
    apply String.eqb_eq in Hs. now subst.
  - intros H. exists (JString needle). split; [exact H|]. simpl. apply String.eqb_refl.
Qed.

Lemma fieldIncludes_spec (field : JsValue) (needle : string) :
  fieldIncludes field needle = true <->
  (exists s, field = JString s /\ occurs_in needle s)
  \/ (exists items, field = JArray items /\ In (JString needle) items).
Proof.
  destruct field; simpl;
    try (split; [discriminate | intros [[? [? _]] | [? [? _]]]; discriminate]).
  - rewrite string_includes_spec. split.
    + intros H. left. now exists s.
    + intros [[s' [Hs H]] | [items [Hs _]]]; [|discriminate].
      injection Hs as ->. exact H.
  - rewrite array_includes_spec. split.
    + intros H. right. now exists items.
    + intros [[s' [Hs _]] | [items' [Hs H]]]; [discriminate|].
      injection Hs as ->. exact H.
Qed.

Lemma fieldIncludes_tags (s : Resource) (needle : string) :
  fieldIncludes (js_tags s) needle = true <->
  exists ts, tags s = Some ts /\ In needle ts.
Proof.
  unfold js_tags. destruct (tags s) as [ts|]; simpl.
  - rewrite array_includes_spec, in_map_iff. split.
    + intros [t [Ht Hin]]. injection Ht as ->. now exists ts.
    + intros [ts' [Hts Hin]]. injection Hts as ->. now exists needle.
  - split; [discriminate | intros [ts [H _]]; discriminate].
Qed.

(** What [Js.lookup] finds: nothing when the key is missing, else the value
    the key is bound to. *)
Lemma lookup_spec (fields : list (string * JsValue)) (key : string) :
  (~ In key (map fst fields) /\ Js.lookup fields key = JUndefined)
  \/ (exists v, bound_to fields key v /\ Js.lookup fields key = v).
Proof.
  induction fields as [|[k v] fields IH]; simpl.
  - left. split; [tauto | reflexivity].
  - destruct (String.eqb k key) eqn:Hk.
    + apply String.eqb_eq in Hk. subst k. right. exists v.
      split; [|reflexivity]. exists [], fields. split; [reflexivity | simpl; tauto].
    + apply String.eqb_neq in Hk.
      destruct IH as [[Hno Hl] | [w [[before [after [Hf Hno]]] Hl]]].
      * left. split; [|exact Hl]. intros [H|H]; [now apply Hk | now apply Hno].
      * right. exists w. split; [|exact Hl].
        exists ((k, v) :: before), after. split.
        -- simpl. now rewrite Hf.
        -- simpl. intros [H|H]; [now apply Hk | now apply Hno].
Qed.

Lemma lookup_bound_to (fields : list (string * JsValue)) (key : string)
      (v : JsValue) :
  bound_to fields key v -> Js.lookup fields key = v.
Proof.
  intros [before [after [-> Hno]]].
  induction before as [|[k w] before IH]; simpl.
  - now rewrite String.eqb_refl.
  - simpl in Hno. destruct (String.eqb k key) eqn:Hk.
    + apply String.eqb_eq in Hk. tauto.
    + apply IH. tauto.
Qed.

Lemma lookup_missing (fields : list (string * JsValue)) (key : string) :
  ~ In key (map fst fields) -> Js.lookup fields key = JUndefined.
Proof.
  intros Hno. destruct (lookup_spec fields key) as [[_ H] | [v [[before [after [Hf _]]] _]]].
  - exact H.
  - exfalso. apply Hno. rewrite Hf, map_app, in_app_iff. right. now left.
Qed.

(** [s.metadata?.level] is a string or an array exactly when [s.metadata] is
    an object whose property [level] is that string or array. *)
Lemma optional_level_spec (s : Resource) (v : JsValue) :
  v <> JUndefined ->
  (Js.optional_level (metadata s) = v <-> metadata_level s v).
Proof.
  intros Hv. unfold metadata_level. split.
  - intros H. destruct (metadata s) as [| | | | | |fields] eqn:Hm; simpl in H;
      try (now exfalso; apply Hv).
    exists fields. split; [reflexivity|].
    destruct (lookup_spec fields "level") as [[_ Hl] | [w [Hb Hl]]].
    + exfalso. apply Hv. now rewrite <- H, Hl.
    + rewrite H in Hl. now subst w.
  - intros [fields [Hm Hb]]. rewrite Hm. simpl. now apply lookup_bound_to.
Qed.

Lemma no_usable_level_spec (s : Resource) (needle : string) :
  no_usable_level s ->
  fieldIncludes (Js.optional_level (metadata s)) needle = false.
Proof.
  intros [Hno | [[fields [Hm Hno]] | [v [[fields [Hm Hb]] [Hstr Harr]]]]].
  - destruct (metadata s); try reflexivity. now exfalso; eapply Hno.
  - rewrite Hm. simpl. now rewrite lookup_missing.
  - rewrite Hm. simpl. rewrite (lookup_bound_to _ _ _ Hb).
    destruct v; try reflexivity.
    + now exfalso; eapply Hstr.
    + now exfalso; eapply Harr.
Qed.

(** C4.  [fieldIncludes] returns a boolean for every run-time value: [true]
    exactly when the value is a string that contains the needle or an array
    that has the needle as an element, and [false] for every other shape
    ([undefined], [null], booleans, numbers, objects).  Hence a resource
    passes a level-or-tag filter iff [metadata] is an object whose property
    [level] is a string containing the level needle, or an array with the
    level needle as an element, or [tags] has the tag needle as an element.
    When [metadata] is not an object, or has no property [level], or the
    property is of another shape, the tags alone decide.  The two filters of
    the page are instances of that shape. *)
Theorem fieldIncludes_total_over_shapes :
  (forall (field : JsValue) (needle : string),
      fieldIncludes field needle = true <->
      (exists s, field = JString s /\ occurs_in needle s)
      \/ (exists items, field = JArray items /\ In (JString needle) items))
  /\ (forall needle : string,
         fieldIncludes JUndefined needle = false
         /\ fieldIncludes JNull needle = false
         /\ (forall b, fieldIncludes (JBool b) needle = false)
         /\ (forall x, fieldIncludes (JNumber x) needle = false)
         /\ (forall fields, fieldIncludes (JObject fields) needle = false))
  /\ (forall (s : Resource) (levelNeedle tagNeedle : string),
         level_or_tag levelNeedle tagNeedle s = true <->
         (exists str, Js.optional_level (metadata s) = JString str
                      /\ occurs_in levelNeedle str)
         \/ (exists items, Js.optional_level (metadata s) = JArray items
                           /\ In (JString levelNeedle) items)
         \/ (exists ts, tags s = Some ts /\ In tagNeedle ts))
  /\ (forall (s : Resource) (levelNeedle tagNeedle : string),
         level_or_tag levelNeedle tagNeedle s = true <->
         (exists str, metadata_level s (JString str)
                      /\ occurs_in levelNeedle str)
         \/ (exists items, metadata_level s (JArray items)
                           /\ In (JString levelNeedle) items)
         \/ (exists ts, tags s = Some ts /\ In tagNeedle ts))
  /\ (forall (s : Resource) (levelNeedle tagNeedle : string),
         no_usable_level s ->
         (level_or_tag levelNeedle tagNeedle s = true <->
          exists ts, tags s = Some ts /\ In tagNeedle ts))
  /\ (forall s : Resource,
         is_undergrad s = level_or_tag "Undergraduate" "undergraduate" s
         /\ is_graduate s = level_or_tag "Masters" "graduate" s
                            || level_or_tag "PhD" "doctoral" s).
Proof.
  split; [|split; [|split; [|split; [|split]]]].
  - apply fieldIncludes_spec.
  - intros needle. repeat split.
  - intros s levelNeedle tagNeedle. unfold level_or_tag.
    rewrite orb_true_iff, fieldIncludes_spec, fieldIncludes_tags. tauto.
  - intros s levelNeedle tagNeedle. unfold level_or_tag.
    rewrite orb_true_iff, fieldIncludes_spec, fieldIncludes_tags.
    split.
    + intros [[[str [Hl Ho]] | [items [Hl Hi]]] | Ht].
      * left. exists str. split; [|exact Ho].
        apply optional_level_spec; [discriminate | exact Hl].
      * right. left. exists items. split; [|exact Hi].
        apply optional_level_spec; [discriminate | exact Hl].
      * right. right. exact Ht.
    + intros [[str [Hl Ho]] | [[items [Hl Hi]] | Ht]].
      * left. left. exists str. split; [|exact Ho].
        apply optional_level_spec; [discriminate | exact Hl].
      * left. right. exists items. split; [|exact Hi].
        apply optional_level_spec; [discriminate | exact Hl].
      * right. exact Ht.
  - intros s levelNeedle tagNeedle Hno. unfold level_or_tag.
    rewrite (no_usable_level_spec s levelNeedle Hno), orb_false_l.
    apply fieldIncludes_tags.
  - intros s. split; [reflexivity|].
    unfold is_graduate, level_or_tag.
    destruct (fieldIncludes (Js.optional_level (metadata s)) "Masters"),
      (fieldIncludes (Js.optional_level (metadata s)) "PhD"),
      (fieldIncludes (js_tags s) "graduate"),
      (fieldIncludes (js_tags s) "doctoral"); reflexivity.
Qed.

(* ================================================================= *)
(** ** The tag blocks *)


(* ================================================================= *)
(** ** The listing queries *)

Lemma In_firstn {A : Type} (n : nat) (l : list A) (x : A) :
  In x (firstn n l) -> In x l.
Proof.
  revert l. induction n as [|n IH]; intros [|y l]; simpl; try tauto.
  intros [H|H]; [now left | right; now apply IH].
Qed.

Lemma StronglySorted_firstn {A : Type} (R : A -> A -> Prop) (n : nat) (l : list A) :
  StronglySorted R l -> StronglySorted R (firstn n l).
Proof.
  revert l. induction n as [|n IH]; intros l Hs; simpl.
  - constructor.
  - destruct l as [|y l]; [constructor|].
    inversion Hs as [|? ? Hl Hy]; subst.
    constructor; [now apply IH|].
    apply Forall_forall. intros z Hz. rewrite Forall_forall in Hy.
    apply Hy. now apply In_firstn in Hz.
Qed.

Section Listing.

Context {E : SqlEngine}.

Lemma select_resources_sound (db : Database) (q : Query) (r : Resource) :
  In r (select_resources db q) ->
  In r (resources db)
  /\ match where_category q with
     | Some c => category r = c
     | None => True
     end.
Proof.
  unfold select_resources. intros H.
  assert (Hlim : In r (if order_created_at_desc q
                       then order_by_desc (limit_rows q) created_at
                              match where_category q with
                              | Some c => filter (fun r => String.eqb (category r) c)
                                            (resources db)
                              | None => resources db
                              end
                       else match where_category q with
                            | Some c => filter (fun r => String.eqb (category r) c)
                                          (resources db)
                            | None => resources db
                            end)).
  { destruct (limit_rows q); [now apply In_firstn in H | exact H]. }
  clear H.
  assert (Hsel : In r match where_category q with
                      | Some c => filter (fun r => String.eqb (category r) c)
                                    (resources db)
                      | None => resources db
                      end).
  { destruct (order_created_at_desc q); [|exact Hlim].
    eapply Permutation_in; [|exact Hlim]. apply order_by_desc_perm. }
  clear Hlim.
  destruct (where_category q) as [c|].
  - apply filter_In in Hsel. destruct Hsel as [Hin Hc].
    split; [exact Hin | now apply String.eqb_eq].
  - now split.
Qed.

Lemma select_resources_newest_first (db : Database) (q : Query) :
  order_created_at_desc q = true -> newest_first (select_resources db q).
Proof.
  unfold select_resources, newest_first. intros ->.
  set (selected := match where_category q with
                   | Some c => filter _ _
                   | None => _
                   end).
  assert (Hs : StronglySorted (fun x y => (created_at y <= created_at x)%Z)
                 (order_by_desc (limit_rows q) created_at selected)).
  { pose proof (order_by_desc_sorted Resource Z Z_key (limit_rows q)
                  created_at selected) as H.
    unfold descending in H. simpl in H.
    eapply StronglySorted_ind with (P := StronglySorted _); [| |exact H].
    - constructor.
    - intros a l _ IH Ha. constructor; [exact IH|].
      eapply Forall_impl; [|exact Ha]. intros b Hb. now apply Z.leb_le. }
  destruct (limit_rows q); [now apply StronglySorted_firstn | exact Hs].
Qed.


(** C1.  When the query fails, the scholarships page and the home page show
    the empty list and write the error to the console; the jobs page and the
    visa guide page show the empty list and leave no trace of the error. *)
Theorem failure_signal_by_page (error : PostgrestError) (db : Database) :
  fetchScholarships (Some error) db mounted
  = {| shown := []; console := [("Error fetching scholarships:", error)] |}
  /\ getRecentResources (Some error) db mounted
     = {| shown := []; console := [("Error fetching resources:", error)] |}
  /\ fetchJobResources (Some error) db mounted = {| shown := []; console := [] |}
  /\ fetchVisaResources (Some error) db mounted = {| shown := []; console := [] |}.
Proof.
  repeat split.
Qed.

(** C5.  Every resource returned by [listByCategory (Some c)] has category
    [c], whatever the limit; so the lists the scholarships, jobs and visa
    guide pages hold after their fetch contain only resources of the page's
    category, whether the query succeeded or failed. *)
Theorem listByCategory_only_category (db : Database) :
  (forall (c : string) (limit : option nat),
      Forall (fun r => category r = c)
             (select_resources db (listByCategory (Some c) limit)))
  /\ (forall outage,
         Forall (fun r => category r = "scholarship")
                (shown (fetchScholarships outage db mounted))
         /\ Forall (fun r => category r = "job")
                   (shown (fetchJobResources outage db mounted))
         /\ Forall (fun r => category r = "visa")
                   (shown (fetchVisaResources outage db mounted))).
Proof.
  assert (G : forall c limit,
             Forall (fun r => category r = c)
                    (select_resources db (listByCategory (Some c) limit))).
  { intros c limit. apply Forall_forall. intros r Hr.
    now apply select_resources_sound in Hr. }
  split; [exact G|].
  intros [e|]; simpl.
  - repeat split; constructor.
  - repeat split; apply (G _ None).
Qed.

(** C6 (amended).  Every sequence a listing query returns is ordered by
    [created_at], newest first, whatever the engine, the category and the
    limit; this holds for the list of each of the four pages. *)
Theorem listing_newest_first (db : Database) :
  (forall (c : option string) (limit : option nat),
      newest_first (select_resources db (listByCategory c limit)))
  /\ (forall outage,
         newest_first (shown (fetchScholarships outage db mounted))
         /\ newest_first (shown (getRecentResources outage db mounted))
         /\ newest_first (shown (fetchJobResources outage db mounted))
         /\ newest_first (shown (fetchVisaResources outage db mounted))).
Proof.
  split.
  - intros c limit. now apply select_resources_newest_first.
  - intros [e|]; simpl.
    + repeat split; constructor.
    + repeat split; now apply select_resources_newest_first.
Qed.


End Listing.

(* ================================================================= *)
(** ** The category constraint *)

Lemma category_in_spec (allowed : list string) (c : string) :
  category_in allowed c = true <-> In c allowed.
Proof.
  unfold category_in. rewrite existsb_exists. split.
  - intros [x [Hx Heq]]. apply String.eqb_eq in Heq. now subst.
  - intros H. exists c. split; [exact H | apply String.eqb_refl].
Qed.

Lemma schema_categories_in_seed (c : string) :
  category_in schema_categories c = true -> category_in seed_categories c = true.
Proof.
  rewrite !category_in_spec. unfold schema_categories, seed_categories.
  simpl. tauto.
Qed.

Lemma insert_resource_category (uuid : string) (now : Z) (v : NewResource)
      (db db' : Database) :
  insert_resource uuid now v db = Some db' ->
  exists r, resources db' = resources db ++ [r]
            /\ new_category v = Some (category r)
            /\ category_accepted db (Some (category r)) = true
            /\ resources_category_check db' = resources_category_check db.
Proof.
  unfold insert_resource.
  destruct (new_title v) as [t|]; [|discriminate].
  destruct (new_category v) as [c|]; [|discriminate].
  destruct (category_accepted db (Some c)) eqn:Hc; [|discriminate].
  destruct (negb _); [|discriminate].
  simpl. intros H. injection H as <-. simpl.
  eexists. split; [reflexivity|]. simpl. auto.
Qed.

Lemma apply_write_well_formed (b : bool) (db : Database) (w : Write) :
  well_formed b db -> well_formed (b || is_seed_step1 w) (apply_write db w).
Proof.
  intros [Hrows Hchk]. destruct w as [uuid now v|].
  - simpl. rewrite orb_false_r.
    destruct (insert_resource uuid now v db) as [db'|] eqn:Hins; [|now split].
    apply insert_resource_category in Hins.
    destruct Hins as [r [Hr [_ [Hacc Hsame]]]].
    split; [|now rewrite Hsame].
    rewrite Hr. apply Forall_app. split; [exact Hrows|].
    constructor; [|constructor].
    unfold category_accepted in Hacc. rewrite Hchk in Hacc.
    destruct b; simpl in Hacc; [exact Hacc | now apply schema_categories_in_seed].
  - rewrite orb_true_r.
    unfold apply_write, seed_step1, add_constraint, drop_constraint_if_exists.
    cbn [resources_category_check resources documents].
    assert (Hall : forallb (fun r => category_in seed_categories (category r))
                     (resources db) = true).
    { apply forallb_forall. now apply Forall_forall. }
    rewrite Hall. now split.
Qed.

Lemma apply_writes_well_formed (ws : list Write) (b : bool) (db : Database) :
  well_formed b db -> well_formed (b || seeded ws) (apply_writes ws db).
Proof.
  unfold apply_writes, seeded. revert b db.
  induction ws as [|w ws IH]; intros b db H; simpl.
  - now rewrite orb_false_r.
  - rewrite orb_assoc. apply IH. now apply apply_write_well_formed.
Qed.

Lemma create_tables_well_formed : well_formed false create_tables.
Proof. split; [constructor | reflexivity]. Qed.



(** C10.  After step 1 of the seed script the table accepts ['university']
    and stores the seed script's university row, and ['university'] is not
    in the union of [Resource.category]; the home page then holds a row
    whose category is outside that union.  The inclusion the other way
    holds: every value of the union is accepted. *)
Theorem university_outside_Resource_category :
  let db := seed_step1 create_tables in
  category_accepted db (Some "university") = true
  /\ category_in Resource_category "university" = false
  /\ (forall c, category_in Resource_category c = true ->
                category_accepted db (Some c) = true)
  /\ (exists db',
         insert_resource "7d0a1c5e-0000-4000-8000-000000000011" 1763251200
           seed_university_of_toronto db = Some db'
         /\ map category (resources db') = ["university"]
         /\ map category
              (shown (getRecentResources (E := stable_engine) None db' mounted))
            = ["university"]).
Proof.
  cbv zeta. split; [reflexivity|]. split; [reflexivity|]. split.
  - intros c Hc. apply schema_categories_in_seed in Hc. exact Hc.
  - eexists. split; [reflexivity|]. split; reflexivity.
Qed.

(* ================================================================= *)
(** ** The range of the cosine distance in exact arithmetic *)

Open Scope R_scope.

Lemma dot_self_nonneg (a : vector) : 0 <= dot a a.
Proof.
  induction a as [|x a IH]; simpl; [lra | nra].
Qed.

(** The step of the Cauchy-Schwarz inequality. *)
Lemma cauchy_schwarz_step (x y d na nb : R) :
  0 <= na -> 0 <= nb -> d * d <= na * nb ->
  (x * y + d) * (x * y + d) <= (x * x + na) * (y * y + nb).
Proof.
  intros Hna Hnb Hd.
  assert (H : 2 * (x * y) * d <= x * x * nb + y * y * na).
  { destruct (Rle_dec (2 * (x * y) * d) 0) as [Hneg|Hpos].
    - nra.
    - apply Rnot_le_lt in Hpos.
      apply Rsqr_incr_0_var; [|nra].
      unfold Rsqr.
      assert (H1 : (x * y) * (x * y) * (d * d) <= (x * y) * (x * y) * (na * nb)).
      { apply Rmult_le_compat_l; [nra | exact Hd]. }
      pose proof (Rle_0_sqr (x * x * nb - y * y * na)) as H2.
      unfold Rsqr in H2. nra. }
  nra.
Qed.

Lemma cauchy_schwarz (a b : vector) :
  dot a b * dot a b <= dot a a * dot b b.
Proof.
  revert b. induction a as [|x a IH]; intros [|y b]; simpl.
  - lra.
  - lra.
  - pose proof (dot_self_nonneg a). nra.
  - apply cauchy_schwarz_step;
      [apply dot_self_nonneg | apply dot_self_nonneg | apply IH].
Qed.

Lemma cosine_in_range (a b : vector) :
  dot a a * dot b b <> 0 ->
  -1 <= dot a b / sqrt (dot a a * dot b b) <= 1.
Proof.
  intros Hn.
  assert (Hpos : 0 < dot a a * dot b b).
  { pose proof (dot_self_nonneg a). pose proof (dot_self_nonneg b). nra. }
  pose proof (sqrt_lt_R0 _ Hpos) as Hs.
  pose proof (sqrt_sqrt _ (Rlt_le _ _ Hpos)) as Hss.
  pose proof (cauchy_schwarz a b) as Hcs.
  set (s := sqrt (dot a a * dot b b)) in *.
  set (d := dot a b) in *.
  assert (Hd : - s <= d <= s).
  { split.
    - destruct (Rle_dec (- s) d) as [H|H]; [exact H|]. nra.
    - destruct (Rle_dec d s) as [H|H]; [exact H|]. nra. }
  split.
  - apply Rmult_le_reg_r with s; [exact Hs|].
    unfold Rdiv. rewrite Rmult_assoc, Rinv_l; lra.
  - apply Rmult_le_reg_r with s; [exact Hs|].
    unfold Rdiv. rewrite Rmult_assoc, Rinv_l; lra.
Qed.

(** In exact arithmetic the distance is NaN exactly when a norm is zero,
    and ranges over [0,2] otherwise. *)
Lemma exact_cosine_distance_range (a b : vector) :
  match exact_cosine_distance a b with
  | Fin d => dot a a * dot b b <> 0 /\ 0 <= d <= 2
  | NaN => dot a a * dot b b = 0
  | PosInf | NegInf => False
  end.
Proof.
  unfold exact_cosine_distance.
  destruct (Req_dec_T (dot a a * dot b b) 0) as [H0|Hn]; [exact H0|].
  split; [exact Hn|]. pose proof (cosine_in_range a b Hn). lra.
Qed.

Lemma dot_zero_coordinates (a : vector) :
  Forall (fun x => x = 0) a -> dot a a = 0.
Proof.
  induction 1 as [|x a Hx _ IH]; simpl; [reflexivity|]. rewrite IH, Hx. lra.
Qed.

Close Scope R_scope.

(** Exact arithmetic has the properties asked of the numeric operations. *)
Definition exact_numerics : Numerics.
Proof.
  refine {| cosine_distance := exact_cosine_distance;
            one_minus := exact_one_minus |}.
  - intros a b _. pose proof (exact_cosine_distance_range a b) as H.
    destruct (exact_cosine_distance a b); tauto.
  - intros a b _ Hz. apply dot_zero_coordinates in Hz.
    unfold exact_cosine_distance. rewrite Hz. split.
    + destruct (Req_dec_T (0 * dot b b) 0) as [_|H];
        [reflexivity | exfalso; apply H; lra].
    + destruct (Req_dec_T (dot b b * 0) 0) as [_|H];
        [reflexivity | exfalso; apply H; lra].
  - reflexivity.
  - intros d Hd. exists (1 - d)%R. split; [reflexivity | lra].
Defined.

(* ================================================================= *)
(** ** [match_documents] *)


Lemma gt_number (a : R) (t : float8) :
  Float8.gt (Fin a) t = true <-> number_above (Fin a) t.
Proof.
  unfold number_above, Float8.gt. split.
  - intros H. exists a. split; [reflexivity|].
    destruct t as [b| | |]; simpl in H; try discriminate; [|exact I].
    destruct (Rle_dec a b); [discriminate | lra].
  - intros [a' [Ha H]]. injection Ha as <-.
    destruct t as [b| | |]; simpl; try contradiction; [|reflexivity].
    destruct (Rle_dec a b); [lra | reflexivity].
Qed.

Section MatchDocumentsSpec.

Context {E : SqlEngine} {N : Numerics}.

(** The similarity of a document whose embedding has the dimension of the
    query vector is NaN or a number in [-1,1]. *)
Lemma similarity_of_range (q : vector) (d : Document) (s : float8) :
  similarity_of q d = Some s ->
  different_dimensions q d = false ->
  s = NaN \/ exists x, s = Fin x /\ (-1 <= x <= 1)%R.
Proof.
  unfold similarity_of, different_dimensions.
  destruct (embedding d) as [e|]; [|discriminate].
  intros H Hd. injection H as <-.
  apply negb_false_iff, Nat.eqb_eq in Hd.
  pose proof (cosine_distance_range e q Hd) as Hr.
  destruct (cosine_distance e q) as [x| | |]; try contradiction.
  - right. destruct (one_minus_range x Hr) as [s [-> Hs]]. eauto.
  - left. apply one_minus_NaN.
Qed.

(** What a call that returns rows did. *)
Lemma match_documents_some (db : Database) (qo : option vector)
      (to : option float8) (no : option Z) (rows : list Match) :
  match_documents db qo to no = Some rows ->
  (forall n, no = Some n -> (0 <= n)%Z)
  /\ ((rows = [] /\ (no = Some 0%Z \/ qo = None \/ to = None))
      \/ (no <> Some 0%Z
          /\ exists q t ordered,
            qo = Some q /\ to = Some t
            /\ existsb (different_dimensions q) (documents db) = false
            /\ Permutation ordered
                 (map (to_match q) (filter (qualifies q t) (documents db)))
            /\ descending similarity ordered
            /\ rows = match option_map Z.to_nat no with
                      | Some n => firstn n ordered
                      | None => ordered
                      end)).
Proof.
  unfold match_documents. intros H.
  assert (Hneg : forall n, no = Some n -> (0 <= n)%Z).
  { intros n ->. destruct (n <? 0)%Z eqn:Hn; [discriminate|].
    now apply Z.ltb_ge. }
  split; [exact Hneg|].
  destruct (match no with Some n => (n <? 0)%Z | None => false end);
    [discriminate|].
  destruct (match no with Some n => (n =? 0)%Z | None => false end) eqn:H0.
  - injection H as <-. left. split; [reflexivity|]. left.
    destruct no as [n|]; [|discriminate]. apply Z.eqb_eq in H0. now subst.
  - assert (Hno : no <> Some 0%Z).
    { intros ->. discriminate. }
    destruct qo as [q|]; [|injection H as <-; left; auto].
    destruct to as [t|]; [|injection H as <-; left; auto].
    destruct (existsb (different_dimensions q) (documents db)) eqn:Hd;
      [discriminate|].
    injection H as <-. right. split; [exact Hno|].
    exists q, t.
    exists (order_by_desc (option_map Z.to_nat no) similarity
              (map (to_match q) (filter (qualifies q t) (documents db)))).
    split; [reflexivity|]. split; [reflexivity|]. split; [exact Hd|].
    split; [apply order_by_desc_perm|].
    split; [apply order_by_desc_sorted | reflexivity].
Qed.

(** The two errors: a negative count, and a stored embedding of another
    dimension than the query vector. *)
Lemma match_documents_error (db : Database) (qo : option vector)
      (to : option float8) (no : option Z) :
  match_documents db qo to no = None ->
  (exists n, no = Some n /\ (n < 0)%Z)
  \/ (no <> Some 0%Z
      /\ exists q d e,
        qo = Some q /\ In d (documents db) /\ embedding d = Some e
        /\ List.length e <> List.length q).
Proof.
  unfold match_documents. intros H.
  destruct (match no with Some n => (n <? 0)%Z | None => false end) eqn:Hneg.
  - left. destruct no as [n|]; [|discriminate]. exists n.
    split; [reflexivity | now apply Z.ltb_lt].
  - destruct (match no with Some n => (n =? 0)%Z | None => false end) eqn:H0;
      [discriminate|].
    right. split.
    { intros ->. discriminate. }
    destruct qo as [q|]; [|discriminate]. destruct to as [t|]; [|discriminate].
    destruct (existsb (different_dimensions q) (documents db)) eqn:Hd;
      [|discriminate].
    apply existsb_exists in Hd. destruct Hd as [d [Hin Hd]].
    unfold different_dimensions in Hd.
    destruct (embedding d) as [e|] eqn:He; [|discriminate].
    exists q, d, e. repeat split; try assumption.
    apply negb_true_iff, Nat.eqb_neq in Hd. exact Hd.
Qed.

(** Every returned row is the SELECT list of a stored document that passed
    the WHERE clause. *)
Lemma match_documents_rows (db : Database) (qo : option vector)
      (to : option float8) (no : option Z) (rows : list Match) (r : Match) :
  match_documents db qo to no = Some rows -> In r rows ->
  exists q t d,
    qo = Some q /\ to = Some t /\ In d (documents db)
    /\ different_dimensions q d = false
    /\ qualifies q t d = true /\ r = to_match q d.
Proof.
  intros H Hr. apply match_documents_some in H.
  destruct H as [_ [[-> _] | [_ [q [t [ordered [Hq [Ht [Hd [Hp [_ ->]]]]]]]]]]];
    [contradiction|].
  assert (Hin : In r ordered).
  { destruct (option_map Z.to_nat no); [now apply In_firstn in Hr | exact Hr]. }
  eapply Permutation_in in Hin; [|exact Hp].
  apply in_map_iff in Hin. destruct Hin as [d [Hrd Hin]].
  apply filter_In in Hin. destruct Hin as [Hin Hqual].
  exists q, t, d. repeat split; auto.
  destruct (different_dimensions q d) eqn:Hdd; [|reflexivity].
  assert (Hex : existsb (different_dimensions q) (documents db) = true).
  { apply existsb_exists. now exists d. }
  congruence.
Qed.

(** The similarity of a returned row: greater than the threshold as
    PostgreSQL compares, and NaN or a number in [-1,1] above the
    threshold. *)
Lemma returned_similarity (db : Database) (qo : option vector)
      (to : option float8) (no : option Z) (rows : list Match) (r : Match) :
  match_documents db qo to no = Some rows -> In r rows ->
  exists t,
    to = Some t
    /\ Float8.gt (similarity r) t = true
    /\ (similarity r = NaN
        \/ exists s, similarity r = Fin s /\ (-1 <= s <= 1)%R
                     /\ number_above (Fin s) t).
Proof.
  intros H Hr.
  destruct (match_documents_rows db qo to no rows r H Hr)
    as [q [t [d [_ [Ht [_ [Hdd [Hq ->]]]]]]]].
  exists t. split; [exact Ht|].
  unfold qualifies in Hq. unfold to_match. cbn [similarity].
  destruct (similarity_of q d) as [s|] eqn:Hs; [|discriminate].
  split; [exact Hq|].
  destruct (similarity_of_range q d s Hs Hdd) as [->|[x [-> Hx]]].
  - now left.
  - right. exists x. split; [reflexivity|]. split; [exact Hx|].
    now apply gt_number.
Qed.

(** C2 (amended).  [match_documents] raises an error for a negative count,
    and for a stored embedding of another dimension than the query vector
    unless the count is 0.  Otherwise it returns at most [match_count] rows;
    every returned row has a similarity greater than the threshold as
    PostgreSQL compares [float8], which means that the similarity is NaN or
    a number strictly greater than the threshold; the rows are in descending
    order of similarity, rows of similarity NaN first; and no row is
    returned when no document qualifies, or when the vector or the threshold
    is NULL. *)
Theorem match_documents_top_n (db : Database) (query_embedding : option vector)
        (match_threshold : option float8) (match_count : option Z) :
  match match_documents db query_embedding match_threshold match_count with
  | None =>
      (exists n, match_count = Some n /\ (n < 0)%Z)
      \/ (match_count <> Some 0%Z
          /\ exists q d e,
            query_embedding = Some q /\ In d (documents db)
            /\ embedding d = Some e /\ List.length e <> List.length q)
  | Some rows =>
      (forall n, match_count = Some n ->
                 (0 <= n)%Z /\ (Z.of_nat (List.length rows) <= n)%Z)
      /\ Forall (fun r =>
                   exists t,
                     match_threshold = Some t
                     /\ Float8.gt (similarity r) t = true
                     /\ (similarity r = NaN \/ number_above (similarity r) t))
                rows
      /\ descending similarity rows
      /\ (forall q t,
             query_embedding = Some q -> match_threshold = Some t ->
             forallb (fun d => negb (qualifies q t d)) (documents db) = true ->
             rows = [])
      /\ (query_embedding = None \/ match_threshold = None -> rows = [])
  end.
Proof.
  destruct (match_documents db query_embedding match_threshold match_count)
    as [rows|] eqn:Hm; [|now apply match_documents_error in Hm].
  pose proof (returned_similarity db query_embedding match_threshold
                match_count rows) as Hsim.
  specialize (Hsim) with (1 := Hm).
  apply match_documents_some in Hm. destruct Hm as [Hneg Hm].
  split; [|split; [|split; [|split]]].
  - intros n Hn. split; [now apply Hneg|].
    destruct Hm as [[-> _] | [_ [q [t [ordered [_ [_ [_ [_ [_ ->]]]]]]]]]].
    + simpl. now apply Hneg.
    + rewrite Hn. cbn [option_map]. rewrite length_firstn.
      specialize (Hneg n Hn). lia.
  - apply Forall_forall. intros r Hr.
    destruct (Hsim r Hr) as [t [Ht [Hgt Hs]]].
    exists t. split; [exact Ht|]. split; [exact Hgt|].
    destruct Hs as [Hs | [s [Hs [_ Ha]]]]; [now left | right; now rewrite Hs].
  - destruct Hm as [[-> _] | [_ [q [t [ordered [_ [_ [_ [_ [Hs ->]]]]]]]]]].
    + constructor.
    + destruct (option_map Z.to_nat match_count);
        [now apply StronglySorted_firstn | exact Hs].
  - intros q t Hq Ht Hnone.
    destruct Hm as [[-> _] | [_ [q' [t' [ordered [Hq' [Ht' [_ [Hp [_ ->]]]]]]]]]];
      [reflexivity|].
    assert (q' = q) by congruence. assert (t' = t) by congruence. subst q' t'.
    assert (Hf : filter (qualifies q t) (documents db) = []).
    { clear Hp Hsim. induction (documents db) as [|d l IH]; [reflexivity|].
      simpl in Hnone. apply andb_true_iff in Hnone. destruct Hnone as [Hd Hl].
      simpl. apply negb_true_iff in Hd. rewrite Hd. apply IH. exact Hl. }
    rewrite Hf in Hp. simpl in Hp.
    apply Permutation_sym, Permutation_nil in Hp. subst ordered.
    destruct (option_map Z.to_nat match_count) as [[|n]|]; reflexivity.
  - intros Hnull.
    destruct Hm as [[-> _] | [_ [q [t [ordered [Hq [Ht _]]]]]]]; [reflexivity|].
    destruct Hnull; congruence.
Qed.

(** C3 (amended).  Every similarity [match_documents] returns is NaN or a
    number in [-1,1]; a similarity that is a number is strictly greater than
    the threshold, so it lies in [0,1] when the threshold is a number that is
    not negative.  Rows of similarity NaN are returned for every threshold
    other than NaN. *)
Theorem similarity_range (db : Database) (query_embedding : option vector)
        (match_threshold : option float8) (match_count : option Z) :
  match match_documents db query_embedding match_threshold match_count with
  | None =>
      (exists n, match_count = Some n /\ (n < 0)%Z)
      \/ (match_count <> Some 0%Z
          /\ exists q d e,
            query_embedding = Some q /\ In d (documents db)
            /\ embedding d = Some e /\ List.length e <> List.length q)
  | Some rows =>
      Forall (fun r =>
                similarity r = NaN
                \/ exists s, similarity r = Fin s /\ (-1 <= s <= 1)%R
                             /\ forall t, match_threshold = Some (Fin t) ->
                                          (t < s)%R) rows
      /\ (forall t : R,
             match_threshold = Some (Fin t) -> (0 <= t)%R ->
             Forall (fun r =>
                       similarity r = NaN
                       \/ exists s, similarity r = Fin s /\ (0 < s <= 1)%R)
                    rows)
  end.
Proof.
  destruct (match_documents db query_embedding match_threshold match_count)
    as [rows|] eqn:Hm; [|now apply match_documents_error in Hm].
  pose proof (returned_similarity db query_embedding match_threshold
                match_count rows) as Hsim.
  specialize (Hsim) with (1 := Hm).
  assert (G : forall r, In r rows ->
                similarity r = NaN
                \/ exists s, similarity r = Fin s /\ (-1 <= s <= 1)%R
                             /\ forall t, match_threshold = Some (Fin t) ->
                                          (t < s)%R).
  { intros r Hr. destruct (Hsim r Hr) as [t [Ht [_ [Hs | [s [Hs [Hr1 Ha]]]]]]].
    - now left.
    - right. exists s. split; [exact Hs|]. split; [exact Hr1|].
      intros b Hb. rewrite Ht in Hb. injection Hb as ->.
      destruct Ha as [a [Ha Hab]]. injection Ha as <-. exact Hab. }
  split.
  - apply Forall_forall. exact G.
  - intros t Ht H0. apply Forall_forall. intros r Hr.
    destruct (G r Hr) as [Hs | [s [Hs [Hr1 Hab]]]]; [now left|].
    right. exists s. split; [exact Hs|]. specialize (Hab t Ht). lra.
Qed.

End MatchDocumentsSpec.

(* ================================================================= *)
(** ** Similarities that are not numbers above the threshold, or not in [0,1] *)

Lemma dot_zeros (k : nat) : dot (repeat 0%R k) (repeat 0%R k) = 0%R.
Proof.
  induction k as [|k IH]; simpl; [reflexivity | rewrite IH; lra].
Qed.

Lemma dot_axis (x y : R) : dot (axis x) (axis y) = (x * y)%R.
Proof.
  unfold axis. change (dot (x :: ?a) (y :: ?b)) with (x * y + dot a b)%R.
  rewrite dot_zeros. lra.
Qed.

Lemma axis_length (x : R) : List.length (axis x) = 1536%nat.
Proof.
  unfold axis. cbn [List.length]. now rewrite repeat_length.
Qed.

Lemma similarity_of_opposite :
  similarity_of (N := exact_numerics) (axis 1) opposite_document
  = Some (Fin (-1)).
Proof.
  unfold similarity_of, opposite_document. cbn [embedding].
  cbn [cosine_distance one_minus exact_numerics].
  unfold exact_cosine_distance. rewrite !dot_axis.
  destruct (Req_dec_T (-1 * -1 * (1 * 1)) 0) as [H|_]; [lra|].
  cbn [exact_one_minus]. do 2 f_equal.
  replace (-1 * -1 * (1 * 1))%R with 1%R by lra.
  rewrite sqrt_1. lra.
Qed.

Lemma similarity_of_zero :
  similarity_of (N := exact_numerics) (axis 1) zero_document = Some NaN.
Proof.
  unfold similarity_of, zero_document. cbn [embedding].
  cbn [cosine_distance one_minus exact_numerics].
  unfold exact_cosine_distance. rewrite dot_zeros.
  destruct (Req_dec_T (0 * dot (axis 1) (axis 1)) 0) as [_|H];
    [reflexivity | exfalso; apply H; lra].
Qed.

(** A table with one document whose embedding has the dimension of the query
    vector: no error, and the document is returned when it qualifies. *)
Lemma match_documents_single (N : Numerics) (d : Document) (q : vector)
      (t : float8) (n : Z) :
  (0 < n)%Z ->
  different_dimensions q d = false ->
  qualifies q t d = true ->
  match_documents (E := stable_engine)
    {| resources_category_check := Some schema_categories;
       resources := [];
       documents := [d] |} (Some q) (Some t) (Some n)
  = Some [to_match q d].
Proof.
  intros Hn Hd Hq. unfold match_documents. cbn [documents existsb filter].
  assert (H1 : (n <? 0)%Z = false) by (apply Z.ltb_ge; lia).
  assert (H2 : (n =? 0)%Z = false) by (apply Z.eqb_neq; lia).
  rewrite H1, H2, Hd, Hq. cbn [orb option_map map]. cbn.
  destruct (Z.to_nat n) as [|k] eqn:Hk; [lia|].
  cbn [firstn]. now rewrite firstn_nil.
Qed.

(** C2, counterexample.  The stored embedding is the vector of 1536 zeros;
    with threshold 0.5 and count 5 the function returns the row, and its
    similarity is NaN: not a number strictly greater than 0.5. *)
Lemma similarity_nan_returned :
  List.length (axis 1) = 1536%nat
  /\ embedding zero_document = Some (repeat 0%R 1536)
  /\ exists r,
      match_documents (E := stable_engine) (N := exact_numerics) zero_db
        (Some (axis 1)) (Some (Fin (1 / 2))) (Some 5%Z)
      = Some [r]
      /\ match_id r = doc_id zero_document
      /\ similarity r = NaN
      /\ ~ number_above (similarity r) (Fin (1 / 2)).
Proof.
  split; [apply axis_length|]. split; [reflexivity|].
  exists (to_match (N := exact_numerics) (axis 1) zero_document).
  assert (Hs : similarity (to_match (N := exact_numerics) (axis 1) zero_document)
               = NaN).
  { unfold to_match. cbn [similarity]. now rewrite similarity_of_zero. }
  split; [|split; [reflexivity|split; [exact Hs|]]].
  - apply (match_documents_single exact_numerics zero_document); [lia | |].
    + unfold different_dimensions, zero_document. cbn [embedding].
      now rewrite axis_length, repeat_length.
    + unfold qualifies. now rewrite similarity_of_zero.
  - rewrite Hs. intros [a [Ha _]]. discriminate.
Qed.

(** C3, counterexample.  The stored embedding and the query vector have
    1536 coordinates and point in opposite directions; with threshold -2
    and count 1 the function returns the row, with similarity -1. *)
Lemma similarity_can_be_negative :
  List.length (axis 1) = 1536%nat
  /\ List.length (axis (-1)) = 1536%nat
  /\ exists r,
      match_documents (E := stable_engine) (N := exact_numerics) opposite_db
        (Some (axis 1)) (Some (Fin (-2))) (Some 1%Z)
      = Some [r]
      /\ similarity r = Fin (-1)
      /\ ~ (0 <= -1 <= 1)%R.
Proof.
  split; [apply axis_length|]. split; [apply axis_length|].
  exists (to_match (N := exact_numerics) (axis 1) opposite_document).
  split; [|split].
  - apply (match_documents_single exact_numerics opposite_document); [lia | |].
    + unfold different_dimensions, opposite_document. cbn [embedding].
      now rewrite !axis_length.
    + unfold qualifies. rewrite similarity_of_opposite.
      unfold Float8.gt, Float8.le. destruct (Rle_dec (-1) (-2)); [lra | reflexivity].
  - unfold to_match. cbn [similarity]. now rewrite similarity_of_opposite.
  - lra.
Qed.

(* ================================================================= *)
(** ** Examples *)


(** The Vanier row has level ["Doctoral (PhD)"] and tag ["doctoral"]: it is
    in the graduate tab and not in the undergraduate tab; the Pearson row is
    in the undergraduate tab only. *)
Example seed_rows_by_tab :
  map title (graduate (stored "a" seed_vanier ++ stored "b" seed_pearson))
  = ["Vanier Canada Graduate Scholarships (Vanier CGS)"]
  /\ map title (undergrad (stored "a" seed_vanier ++ stored "b" seed_pearson))
     = ["Lester B. Pearson International Scholarship"].
Proof. split; reflexivity. Qed.

(** The level side on resources: [metadata.level] as a string, as an array,
    missing, of another shape, and [metadata] that is not an object; none of
    these resources has tags, except where the tags decide. *)
Example level_cases :
  level_or_tag "PhD" "doctoral"
    (scholarship_with (JObject [("source", JString "official");
                                ("level", JString "Masters")]) None) = false
  /\ level_or_tag "PhD" "doctoral"
       (scholarship_with (JObject [("source", JString "official");
                                   ("level", JArray [JString "Masters";
                                                     JString "PhD"])]) None)
     = true
  /\ level_or_tag "PhD" "doctoral"
       (scholarship_with (JObject [("level", JString "Doctoral (PhD)")]) None)
     = true
  /\ level_or_tag "PhD" "doctoral"
       (scholarship_with (JObject [("source", JString "official")]) None)
     = false
  /\ level_or_tag "PhD" "doctoral"
       (scholarship_with (JObject [("source", JString "official")])
          (Some ["doctoral"])) = true
  /\ level_or_tag "PhD" "doctoral"
       (scholarship_with (JObject [("level", JNumber 3%float)]) None) = false
  /\ level_or_tag "PhD" "doctoral"
       (scholarship_with (JObject [("level", JObject [("PhD", JBool true)])])
          None) = false
  /\ level_or_tag "PhD" "doctoral" (scholarship_with JNull None) = false
  /\ level_or_tag "PhD" "doctoral" (scholarship_with (JString "PhD") None)
     = false
  /\ is_graduate
       (scholarship_with (JObject [("level", JString "Masters")]) None) = true
  /\ is_undergrad
       (scholarship_with (JObject [("level", JString "Masters")]) None) = false
  /\ is_undergrad
       (scholarship_with (JObject [("level", JString "Undergraduate")]) None)
     = true
  /\ is_undergrad
       (scholarship_with (JObject [("level", JString "undergraduate")]) None)
     = false.
Proof. repeat split. Qed.

(** The cases the specification lists for the level side. *)
Example fieldIncludes_cases :
  fieldIncludes (JString "Masters") "PhD" = false
  /\ fieldIncludes (JArray [JString "Masters"; JString "PhD"]) "PhD" = true
  /\ fieldIncludes JUndefined "PhD" = false
  /\ fieldIncludes (JString "Masters/PhD") "PhD" = true
  /\ fieldIncludes (JArray [JString "Masters/PhD"]) "PhD" = false
  /\ fieldIncludes (Js.optional_level JNull) "PhD" = false
  /\ fieldIncludes (Js.optional_level (JObject [("level", JBool true)])) "PhD"
     = false.
Proof. repeat split. Qed.

(* ================================================================= *)
(** * Further properties *)

(* ================================================================= *)
(** ** Lists: prefixes, sublists and permutations *)

Lemma In_skipn {A : Type} (n : nat) (l : list A) (x : A) :
  In x (skipn n l) -> In x l.
Proof.
  revert l. induction n as [|n IH]; intros [|y l]; simpl; try tauto.
  intros H. right. now apply IH.
Qed.

(** In a sorted list every element of a prefix is related to every element
    of the rest. *)
Lemma sorted_firstn_skipn {A : Type} (R : A -> A -> Prop) (n : nat) (l : list A) :
  StronglySorted R l ->
  forall x y, In x (firstn n l) -> In y (skipn n l) -> R x y.
Proof.
  revert l. induction n as [|n IH]; intros l Hs x y Hx Hy.
  - simpl in Hx. contradiction.
  - destruct l as [|a l]; [simpl in Hx; contradiction|].
    inversion Hs as [|? ? Hl Ha]; subst. simpl in Hx, Hy.
    destruct Hx as [<-|Hx].
    + rewrite Forall_forall in Ha. apply Ha. now apply In_skipn in Hy.
    + now apply (IH l Hl).
Qed.

Lemma StronglySorted_filter {A : Type} (R : A -> A -> Prop) (p : A -> bool)
      (l : list A) :
  StronglySorted R l -> StronglySorted R (filter p l).
Proof.
  induction 1 as [|a l Hl IH Ha]; simpl; [constructor|].
  destruct (p a); [|exact IH].
  constructor; [exact IH|].
  apply Forall_forall. intros y Hy. apply filter_In in Hy.
  rewrite Forall_forall in Ha. now apply Ha.
Qed.

Lemma NoDup_map_filter {A B : Type} (key : A -> B) (keep : A -> bool)
      (rows : list A) (Hkeys : NoDup (map key rows)) :
  NoDup (map key (filter keep rows)).
Proof.
  revert Hkeys. induction rows as [|a l IH]; simpl; intros H; [constructor|].
  inversion H as [|? ? Hn Hd]; subst.
  destruct (keep a); [|now apply IH].
  simpl. constructor; [|now apply IH].
  intros Hin. apply Hn. apply in_map_iff in Hin.
  destruct Hin as [x [Hx Hin]]. apply filter_In in Hin.
  apply in_map_iff. exists x. tauto.
Qed.

Lemma NoDup_map_firstn {A B : Type} (f : A -> B) (n : nat) (l : list A) :
  NoDup (map f l) -> NoDup (map f (firstn n l)).
Proof.
  intros H. rewrite <- (firstn_skipn n l), map_app in H.
  now apply NoDup_app_remove_r in H.
Qed.

Lemma NoDup_snoc {A : Type} (l : list A) (x : A) :
  NoDup l -> ~ In x l -> NoDup (l ++ [x]).
Proof.
  intros Hl Hx. apply Permutation_NoDup with (x :: l).
  - apply Permutation_cons_append.
  - now constructor.
Qed.

(* ================================================================= *)
(** ** What an INSERT stores *)

Lemma insert_resource_row (uuid : string) (now : Z) (v : NewResource)
      (db db' : Database) :
  insert_resource uuid now v db = Some db' ->
  exists r,
    resources db' = resources db ++ [r]
    /\ id r = uuid
    /\ created_at r = now
    /\ new_category v = Some (category r)
    /\ new_title v = Some (title r)
    /\ existsb (fun x => String.eqb (id x) uuid) (resources db) = false
    /\ documents db' = documents db
    /\ resources_category_check db' = resources_category_check db.
Proof.
  unfold insert_resource.
  destruct (new_title v) as [t|]; [|discriminate].
  destruct (new_category v) as [c|]; [|discriminate].
  destruct (category_accepted db (Some c)); [|discriminate].
  destruct (existsb _ (resources db)) eqn:Hf; [discriminate|].
  simpl. intros H. injection H as <-. simpl.
  eexists. split; [reflexivity|]. simpl. repeat split; reflexivity.
Qed.

Lemma fresh_id_not_stored (uuid : string) (rows : list Resource) :
  existsb (fun x => String.eqb (id x) uuid) rows = false ->
  ~ In uuid (map id rows).
Proof.
  intros Hf Hin. apply in_map_iff in Hin. destruct Hin as [x [Hx Hin]].
  assert (Ht : existsb (fun x => String.eqb (id x) uuid) rows = true).
  { apply existsb_exists. exists x. split; [exact Hin|]. now apply String.eqb_eq. }
  congruence.
Qed.

(** A write keeps the rows that are stored, in their order, and does not
    touch [documents]. *)
Lemma apply_write_appends (db : Database) (w : Write) :
  (exists new, resources (apply_write db w) = resources db ++ new)
  /\ documents (apply_write db w) = documents db.
Proof.
  destruct w as [uuid now v|]; simpl.
  - destruct (insert_resource uuid now v db) as [db'|] eqn:Hins.
    + apply insert_resource_row in Hins.
      destruct Hins as [r [Hr [_ [_ [_ [_ [_ [Hd _]]]]]]]].
      split; [now exists [r] | exact Hd].
    + split; [exists []; now rewrite app_nil_r | reflexivity].
  - unfold seed_step1, add_constraint, drop_constraint_if_exists.
    cbn [resources_category_check resources documents].
    destruct (forallb _ (resources db)); simpl;
      (split; [exists []; now rewrite app_nil_r | reflexivity]).
Qed.

(** X5.  The writes of the scripts are append-only: after any sequence of
    writes the rows stored before are still there, unchanged and in the
    same order, followed by the new rows; a rejected INSERT changes
    nothing; and no write changes [documents]. *)
Theorem writes_append_only (ws : list Write) (db : Database) :
  (exists new, resources (apply_writes ws db) = resources db ++ new)
  /\ documents (apply_writes ws db) = documents db
  /\ (forall uuid now v,
         insert_resource uuid now v db = None ->
         apply_write db (Insert uuid now v) = db).
Proof.
  split; [|split].
  - unfold apply_writes. revert db.
    induction ws as [|w ws IH]; intros db; simpl.
    + exists []. now rewrite app_nil_r.
    + destruct (IH (apply_write db w)) as [new Hnew].
      destruct (apply_write_appends db w) as [[new0 Hw] _].
      exists (new0 ++ new). now rewrite Hnew, Hw, app_assoc.
  - unfold apply_writes. revert db.
    induction ws as [|w ws IH]; intros db; simpl; [reflexivity|].
    rewrite IH. apply apply_write_appends.
  - intros uuid now v H. simpl. now rewrite H.
Qed.

Lemma apply_write_unique_ids (db : Database) (w : Write) :
  NoDup (map id (resources db)) -> NoDup (map id (resources (apply_write db w))).
Proof.
  intros Hn. destruct w as [uuid now v|]; simpl.
  - destruct (insert_resource uuid now v db) as [db'|] eqn:Hins; [|exact Hn].
    apply insert_resource_row in Hins.
    destruct Hins as [r [Hr [Hid [_ [_ [_ [Hf _]]]]]]].
    rewrite Hr, map_app. simpl. apply NoDup_snoc; [exact Hn|].
    rewrite Hid. now apply fresh_id_not_stored.
  - unfold seed_step1, add_constraint, drop_constraint_if_exists.
    cbn [resources_category_check resources documents].
    destruct (forallb _ (resources db)); exact Hn.
Qed.

Lemma apply_writes_unique_ids (ws : list Write) (db : Database) :
  NoDup (map id (resources db)) -> NoDup (map id (resources (apply_writes ws db))).
Proof.
  unfold apply_writes. revert db.
  induction ws as [|w ws IH]; intros db H; simpl; [exact H|].
  apply IH. now apply apply_write_unique_ids.
Qed.

(* ================================================================= *)
(** ** What the pages list *)

(** The rows of [resources] with category [c], in insertion order. *)
Definition stored_in_category (c : string) (db : Database) : list Resource :=
  filter (fun r => String.eqb (category r) c) (resources db).

Section ListingComplete.

Context {E : SqlEngine}.

Lemma select_resources_unlimited (db : Database) (c : option string) :
  Permutation (select_resources db (listByCategory c None))
              match c with
              | Some c => stored_in_category c db
              | None => resources db
              end.
Proof.
  unfold select_resources, stored_in_category. simpl.
  destruct c; apply order_by_desc_perm.
Qed.

(** A listing with LIMIT [n] is the first [n] rows of some arrangement of
    the selected rows that is newest first; which arrangement may depend on
    [n]. *)
Lemma select_resources_limited (db : Database) (c : option string) (n : nat) :
  exists all,
    Permutation all match c with
                    | Some c => stored_in_category c db
                    | None => resources db
                    end
    /\ newest_first all
    /\ select_resources db (listByCategory c (Some n)) = firstn n all.
Proof.
  unfold select_resources, stored_in_category.
  cbn [where_category order_created_at_desc limit_rows listByCategory].
  set (selected := match c with
                   | Some c0 => filter _ (resources db)
                   | None => resources db
                   end).
  exists (order_by_desc (Some n) created_at selected).
  split; [apply order_by_desc_perm|]. split; [|reflexivity].
  pose proof (order_by_desc_sorted Resource Z Z_key (Some n)
                created_at selected) as H.
  unfold descending in H. simpl in H. unfold newest_first.
  eapply StronglySorted_ind with (P := StronglySorted _); [| |exact H].
  - constructor.
  - intros a l _ IH Ha. constructor; [exact IH|].
    eapply Forall_impl; [|exact Ha]. intros b Hb. now apply Z.leb_le.
Qed.

(** X1.  A successful fetch loses and duplicates nothing: the list of the
    scholarships page is a rearrangement of the stored rows of category
    ['scholarship'], each stored row appearing as many times as it is
    stored; likewise for the jobs and the visa guide pages; so the count a
    page displays is the number of stored rows of its category. *)
Theorem pages_list_every_stored_row (db : Database) :
  Permutation (shown (fetchScholarships None db mounted))
              (stored_in_category "scholarship" db)
  /\ Permutation (shown (fetchJobResources None db mounted))
                 (stored_in_category "job" db)
  /\ Permutation (shown (fetchVisaResources None db mounted))
                 (stored_in_category "visa" db)
  /\ List.length (shown (fetchScholarships None db mounted))
     = List.length (stored_in_category "scholarship" db)
  /\ (forall r, In r (shown (fetchScholarships None db mounted))
                <-> In r (resources db) /\ category r = "scholarship").
Proof.
  assert (Hs : Permutation (shown (fetchScholarships None db mounted))
                           (stored_in_category "scholarship" db)).
  { apply (select_resources_unlimited db (Some "scholarship")). }
  split; [exact Hs|].
  split; [apply (select_resources_unlimited db (Some "job"))|].
  split; [apply (select_resources_unlimited db (Some "visa"))|].
  split; [now apply Permutation_length|].
  intros r. split.
  - intros H. eapply Permutation_in in H; [|exact Hs].
    apply filter_In in H. destruct H as [H1 H2].
    split; [exact H1 | now apply String.eqb_eq].
  - intros [H1 H2]. eapply Permutation_in; [symmetry; exact Hs|].
    apply filter_In. split; [exact H1 | now apply String.eqb_eq].
Qed.

(** X2.  The home page shows the six newest rows: as many rows as are
    stored, up to six; together with the rows left out they make up the
    table; and no row left out is newer than a row shown. *)
Theorem home_page_six_newest (db : Database) :
  exists rest,
    Permutation (shown (getRecentResources None db mounted) ++ rest)
                (resources db)
    /\ List.length (shown (getRecentResources None db mounted))
       = Nat.min 6 (List.length (resources db))
    /\ (forall x y,
           In x (shown (getRecentResources None db mounted)) ->
           In y rest -> (created_at y <= created_at x)%Z).
Proof.
  destruct (select_resources_limited db None 6) as [all [Hperm [Hsorted Hsix]]].
  assert (Hshown : shown (getRecentResources None db mounted) = firstn 6 all)
    by exact Hsix.
  exists (skipn 6 all). rewrite Hshown. split; [|split].
  - now rewrite firstn_skipn.
  - rewrite length_firstn. now rewrite (Permutation_length Hperm).
  - now apply sorted_firstn_skipn.
Qed.

(** The head of a list that is newest first and contains one row newer than
    all the others is that row. *)
Lemma newest_row_is_head (old l : list Resource) (r : Resource) :
  newest_first l ->
  Permutation l (old ++ [r]) ->
  Forall (fun x => (created_at x < created_at r)%Z) old ->
  exists rest, l = r :: rest.
Proof.
  intros Hs Hp Hold. destruct l as [|h l].
  - apply Permutation_nil in Hp. now destruct old.
  - assert (Hr : In r (h :: l)).
    { eapply Permutation_in; [symmetry; exact Hp|].
      apply in_or_app. right. now left. }
    assert (Hh : In h (old ++ [r])).
    { eapply Permutation_in; [exact Hp|]. now left. }
    apply in_app_or in Hh. destruct Hh as [Hh|[Hh|[]]].
    + exfalso. rewrite Forall_forall in Hold. specialize (Hold h Hh).
      destruct Hr as [Hr|Hr]; [subst; lia|].
      inversion Hs as [|? ? _ Hall]; subst. rewrite Forall_forall in Hall.
      specialize (Hall r Hr). simpl in Hall. lia.
    + subst. now exists l.
Qed.

(** X3.  A row inserted with a timestamp later than every stored one comes
    first: on the home page, and in the listing of its category whatever the
    limit, unless the limit is zero. *)
Theorem newest_insert_listed_first (db db' : Database) (uuid : string) (now : Z)
        (v : NewResource) :
  insert_resource uuid now v db = Some db' ->
  Forall (fun x => (created_at x < now)%Z) (resources db) ->
  exists r,
    resources db' = resources db ++ [r]
    /\ id r = uuid
    /\ (exists rest, shown (getRecentResources None db' mounted) = r :: rest)
    /\ (forall limit, limit <> Some 0%nat ->
          exists rest,
            select_resources db' (listByCategory (Some (category r)) limit)
            = r :: rest).
Proof.
  intros Hins Hold. apply insert_resource_row in Hins.
  destruct Hins as [r [Hr [Hid [Hnow _]]]].
  exists r. split; [exact Hr|]. split; [exact Hid|].
  rewrite <- Hnow in Hold.
  assert (Hstored : stored_in_category (category r) db'
                    = stored_in_category (category r) db ++ [r]).
  { unfold stored_in_category. rewrite Hr, filter_app. simpl.
    now rewrite String.eqb_refl. }
  assert (Holdc : Forall (fun x => (created_at x < created_at r)%Z)
                         (stored_in_category (category r) db)).
  { unfold stored_in_category. apply Forall_forall. intros x Hx.
    apply filter_In in Hx. rewrite Forall_forall in Hold. now apply Hold. }
  split.
  - destruct (select_resources_limited db' None 6) as [all [Hperm [Hsorted Hsix]]].
    change (shown (getRecentResources None db' mounted))
      with (select_resources db' (listByCategory None (Some 6%nat))).
    rewrite Hsix.
    destruct (newest_row_is_head (resources db) all r Hsorted) as [rest ->];
      [now rewrite <- Hr | exact Hold |].
    simpl. eauto.
  - intros [n|] Hlim.
    + destruct n as [|n]; [congruence|].
      destruct (select_resources_limited db' (Some (category r)) (S n))
        as [all [Hperm [Hsorted ->]]].
      destruct (newest_row_is_head (stored_in_category (category r) db) all r
                  Hsorted) as [rest ->];
        [now rewrite <- Hstored | exact Holdc |].
      simpl. eauto.
    + apply newest_row_is_head with (old := stored_in_category (category r) db).
      * now apply select_resources_newest_first.
      * rewrite (select_resources_unlimited db' (Some (category r))).
        now rewrite Hstored.
      * exact Holdc.
Qed.

(** X6.  Categories are isolated: an INSERT of a row of another category
    leaves the listing of category [c] as it was, and so the list of the
    page that shows [c]. *)
Theorem insert_of_other_category (db db' : Database) (uuid : string) (now : Z)
        (v : NewResource) (c : string) :
  insert_resource uuid now v db = Some db' ->
  new_category v <> Some c ->
  forall limit,
    select_resources db' (listByCategory (Some c) limit)
    = select_resources db (listByCategory (Some c) limit).
Proof.
  intros Hins Hc limit. apply insert_resource_row in Hins.
  destruct Hins as [r [Hr [_ [_ [Hcat _]]]]].
  unfold select_resources. simpl. rewrite Hr, filter_app. simpl.
  destruct (String.eqb (category r) c) eqn:Heq.
  - apply String.eqb_eq in Heq. congruence.
  - now rewrite app_nil_r.
Qed.

(** X4.  Ids are unique: in every state the scripts can reach no two stored
    rows have the same [id], so the [key] props of the cards a page renders
    ([key={resource.id}]) are pairwise distinct, for every listing. *)
Theorem ids_unique (ws : list Write) (q : Query) :
  let db := apply_writes ws create_tables in
  NoDup (map id (resources db))
  /\ NoDup (map id (select_resources db q))
  /\ (forall outage,
         NoDup (map id (shown (fetchScholarships outage db mounted)))
         /\ NoDup (map id (shown (fetchJobResources outage db mounted)))
         /\ NoDup (map id (shown (fetchVisaResources outage db mounted)))
         /\ NoDup (map id (shown (getRecentResources outage db mounted)))).
Proof.
  cbv zeta. set (db := apply_writes ws create_tables).
  assert (Hdb : NoDup (map id (resources db))).
  { apply apply_writes_unique_ids. constructor. }
  assert (Hq : forall q, NoDup (map id (select_resources db q))).
  { intros q'. unfold select_resources.
    set (selected := match where_category q' with
                     | Some c => filter _ (resources db)
                     | None => resources db
                     end).
    assert (Hsel : NoDup (map id selected)).
    { unfold selected. destruct (where_category q');
        [now apply NoDup_map_filter | exact Hdb]. }
    assert (Hord : NoDup (map id (if order_created_at_desc q'
                                  then order_by_desc (limit_rows q') created_at
                                         selected
                                  else selected))).
    { destruct (order_created_at_desc q'); [|exact Hsel].
      eapply Permutation_NoDup; [|exact Hsel].
      apply Permutation_map. symmetry. apply order_by_desc_perm. }
    destruct (limit_rows q'); [now apply NoDup_map_firstn | exact Hord]. }
  split; [exact Hdb|]. split; [apply Hq|].
  intros [e|]; simpl.
  - repeat split; constructor.
  - repeat split; apply Hq.
Qed.

Lemma subsequence_filter {A : Type} (keep : A -> bool) (l : list A) :
  subsequence (filter keep l) l.
Proof.
  induction l as [|x l IH]; simpl; [constructor|].
  destruct (keep x); now constructor.
Qed.

(** X7.  The tabs of the scholarships page are sublists of the fetched
    list: each tab is the fetched list with the rows left out that do not
    pass its filter, the rows kept being in the order of the fetched list,
    hence newest first, and never more rows than the "All" tab. *)
Theorem tabs_are_sublists (outage : option PostgrestError) (db : Database) :
  let all := shown (fetchScholarships outage db mounted) in
  subsequence (undergrad all) all
  /\ subsequence (graduate all) all
  /\ (forall r, In r (undergrad all) <-> In r all /\ is_undergrad r = true)
  /\ (forall r, In r (graduate all) <-> In r all /\ is_graduate r = true)
  /\ newest_first (undergrad all)
  /\ newest_first (graduate all)
  /\ incl (undergrad all) all
  /\ incl (graduate all) all
  /\ (List.length (undergrad all) <= List.length all)%nat
  /\ (List.length (graduate all) <= List.length all)%nat
  /\ Forall (fun r => category r = "scholarship") (undergrad all ++ graduate all).
Proof.
  cbv zeta.
  split; [apply subsequence_filter|]. split; [apply subsequence_filter|].
  split; [intros r; apply filter_In|]. split; [intros r; apply filter_In|].
  cbv zeta. set (all := shown (fetchScholarships outage db mounted)).
  assert (Hs : newest_first all).
  { unfold all. destruct outage as [e|]; simpl;
      [constructor | now apply select_resources_newest_first]. }
  assert (Hc : Forall (fun r => category r = "scholarship") all).
  { unfold all. destruct outage as [e|]; simpl; [constructor|].
    apply Forall_forall. intros r Hr.
    now apply select_resources_sound in Hr. }
  unfold undergrad, graduate.
  split; [now apply StronglySorted_filter|].
  split; [now apply StronglySorted_filter|].
  split; [apply incl_filter|]. split; [apply incl_filter|].
  split; [apply filter_length_le|]. split; [apply filter_length_le|].
  apply Forall_app. rewrite Forall_forall in Hc.
  split; apply Forall_forall; intros r Hr; apply filter_In in Hr; now apply Hc.
Qed.

End ListingComplete.

(* ================================================================= *)
(** ** What the store determines of a listing *)

(** Two lists of instants in descending order with the same elements are
    the same list. *)
Lemma descending_unique (l1 l2 : list Z) :
  StronglySorted (fun x y => (y <= x)%Z) l1 ->
  StronglySorted (fun x y => (y <= x)%Z) l2 ->
  Permutation l1 l2 -> l1 = l2.
Proof.
  revert l2. induction l1 as [|x l1 IH]; intros l2 H1 H2 Hp.
  - apply Permutation_nil in Hp. now subst.
  - destruct l2 as [|y l2].
    + apply Permutation_sym, Permutation_nil in Hp. discriminate.
    + inversion H1 as [|? ? Hs1 Hx]; subst. inversion H2 as [|? ? Hs2 Hy]; subst.
      rewrite Forall_forall in Hx, Hy.
      assert (Hxy : (x <= y)%Z).
      { assert (Hin : In x (y :: l2))
          by (eapply Permutation_in; [exact Hp | now left]).
        destruct Hin as [->|Hin]; [lia | now apply Hy]. }
      assert (Hyx : (y <= x)%Z).
      { assert (Hin : In y (x :: l1))
          by (eapply Permutation_in; [symmetry; exact Hp | now left]).
        destruct Hin as [->|Hin]; [lia | now apply Hx]. }
      assert (x = y) by lia. subst y.
      f_equal. apply IH; [exact Hs1 | exact Hs2 |].
      now apply Permutation_cons_inv in Hp.
Qed.

Lemma newest_first_created_at (l : list Resource) :
  newest_first l -> StronglySorted (fun x y => (y <= x)%Z) (map created_at l).
Proof.
  unfold newest_first. induction 1 as [|x l _ IH Hx]; simpl; constructor.
  - exact IH.
  - apply Forall_forall. intros t Ht. apply in_map_iff in Ht.
    destruct Ht as [y [<- Hy]]. rewrite Forall_forall in Hx. now apply Hx.
Qed.

(** Two arrangements of the same rows with the same sequence of keys are
    the same list when no two rows have the same key. *)
Lemma same_keys_same_rows (l1 l2 : list Resource) :
  NoDup (map created_at l1) ->
  Permutation l1 l2 ->
  map created_at l1 = map created_at l2 ->
  l1 = l2.
Proof.
  revert l2. induction l1 as [|x l1 IH]; intros l2 Hnd Hp Hk.
  - apply Permutation_nil in Hp. now subst.
  - destruct l2 as [|y l2]; [discriminate|].
    simpl in Hk. injection Hk as Hxy Hk.
    simpl in Hnd. inversion Hnd as [|? ? Hnot Hnd']; subst.
    assert (Hin : In y (x :: l1))
      by (eapply Permutation_in; [symmetry; exact Hp | now left]).
    destruct Hin as [->|Hin].
    + f_equal. apply IH; [exact Hnd' | | exact Hk].
      now apply Permutation_cons_inv in Hp.
    + exfalso. apply Hnot. rewrite Hxy. now apply in_map.
Qed.

(** X16.  What the stored rows determine of a listing, and what they leave
    to the database.  Two answers to the same listing query on the same
    database, by any two ways of honouring ORDER BY, show the same sequence
    of [created_at] values; without a limit they hold the same rows; and
    they are the same list when the selected rows have pairwise distinct
    [created_at].  The order of rows of equal [created_at], and with a limit
    which of them are returned, is not determined by the query. *)
Theorem listings_agree_up_to_ties (E1 E2 : SqlEngine) (db : Database)
        (c : option string) (limit : option nat) :
  map created_at (select_resources (E := E1) db (listByCategory c limit))
  = map created_at (select_resources (E := E2) db (listByCategory c limit))
  /\ Permutation (select_resources (E := E1) db (listByCategory c None))
                 (select_resources (E := E2) db (listByCategory c None))
  /\ (NoDup (map created_at match c with
                            | Some c => stored_in_category c db
                            | None => resources db
                            end) ->
      select_resources (E := E1) db (listByCategory c limit)
      = select_resources (E := E2) db (listByCategory c limit)).
Proof.
  assert (G : exists all1 all2,
             Permutation all1 all2
             /\ Permutation all1 match c with
                                 | Some c => stored_in_category c db
                                 | None => resources db
                                 end
             /\ newest_first all1 /\ newest_first all2
             /\ select_resources (E := E1) db (listByCategory c limit)
                = match limit with Some n => firstn n all1 | None => all1 end
             /\ select_resources (E := E2) db (listByCategory c limit)
                = match limit with Some n => firstn n all2 | None => all2 end).
  { destruct limit as [n|].
    - destruct (select_resources_limited (E := E1) db c n) as [a1 [Hp1 [Hs1 He1]]].
      destruct (select_resources_limited (E := E2) db c n) as [a2 [Hp2 [Hs2 He2]]].
      exists a1, a2. repeat split; try assumption.
      now rewrite Hp1, Hp2.
    - exists (select_resources (E := E1) db (listByCategory c None)),
             (select_resources (E := E2) db (listByCategory c None)).
      repeat split.
      + now rewrite !select_resources_unlimited.
      + apply select_resources_unlimited.
      + now apply select_resources_newest_first.
      + now apply select_resources_newest_first. }
  destruct G as [all1 [all2 [Hp [Hsel [Hs1 [Hs2 [-> ->]]]]]]].
  assert (Hkeys : map created_at all1 = map created_at all2).
  { apply descending_unique;
      [now apply newest_first_created_at | now apply newest_first_created_at |].
    now apply Permutation_map. }
  split; [|split].
  - destruct limit as [n|]; [|exact Hkeys].
    now rewrite <- !firstn_map, Hkeys.
  - now rewrite !select_resources_unlimited.
  - intros Hnd.
    assert (Heq : all1 = all2).
    { apply same_keys_same_rows; [|exact Hp | exact Hkeys].
      eapply Permutation_NoDup; [|exact Hnd].
      apply Permutation_map. now symmetry. }
    now rewrite Heq.
Qed.

(* ================================================================= *)
(** ** More on [match_documents] *)

Section MatchDocumentsMore.

Context {E : SqlEngine} {N : Numerics}.

(** X8.  [match_documents] returns the best rows: as many as qualify, up to
    [match_count]; together with the qualifying rows it leaves out they are
    the qualifying rows; and no row left out has a greater similarity than a
    row returned.  The errors are a negative count and a stored embedding of
    another dimension than the query vector. *)
Theorem match_documents_best (db : Database) (query_embedding : vector)
        (match_threshold : float8) (match_count : Z) :
  match match_documents db (Some query_embedding) (Some match_threshold)
          (Some match_count) with
  | None =>
      (match_count < 0)%Z
      \/ exists d e, In d (documents db) /\ embedding d = Some e
                     /\ List.length e <> List.length query_embedding
  | Some rows =>
      exists rest,
        Permutation (rows ++ rest)
          (map (to_match query_embedding)
               (filter (qualifies query_embedding match_threshold)
                       (documents db)))
        /\ List.length rows
           = Nat.min (Z.to_nat match_count)
               (List.length (filter (qualifies query_embedding match_threshold)
                               (documents db)))
        /\ (forall x y, In x rows -> In y rest ->
                        Float8.le (similarity y) (similarity x) = true)
  end.
Proof.
  destruct (match_documents db (Some query_embedding) (Some match_threshold)
              (Some match_count)) as [rows|] eqn:Hm.
  - apply match_documents_some in Hm. destruct Hm as [_ Hm].
    destruct Hm as [[-> Hz] | [_ [q [t [ordered [Hq [Ht [_ [Hp [Hs ->]]]]]]]]]].
    + destruct Hz as [Hz | [Hz | Hz]]; try discriminate.
      injection Hz as ->.
      exists (map (to_match query_embedding)
                (filter (qualifies query_embedding match_threshold)
                   (documents db))).
      split; [reflexivity|]. split; [reflexivity|]. intros x y [].
    + injection Hq as <-. injection Ht as <-. cbn [option_map].
      exists (skipn (Z.to_nat match_count) ordered). split; [|split].
      * now rewrite firstn_skipn.
      * rewrite length_firstn, (Permutation_length Hp). now rewrite length_map.
      * apply (sorted_firstn_skipn
                 (fun x y => Float8.le (similarity y) (similarity x) = true)).
        exact Hs.
  - apply match_documents_error in Hm.
    destruct Hm as [[n [Hn Hneg]] | [_ [q [d [e [Hq [Hin [He Hlen]]]]]]]].
    + left. now injection Hn as ->.
    + right. injection Hq as <-. now exists d, e.
Qed.

(** X11.  With a threshold of 1 or more, Infinity included, no row with a
    numeric similarity is returned: every returned row has similarity
    NaN. *)
Theorem threshold_one_returns_only_nan (db : Database)
        (query_embedding : option vector) (match_threshold : float8)
        (match_count : option Z) (rows : list Match) :
  Float8.le (Fin 1) match_threshold = true ->
  match_documents db query_embedding (Some match_threshold) match_count
  = Some rows ->
  Forall (fun r => similarity r = NaN) rows.
Proof.
  intros Ht Hm. apply Forall_forall. intros r Hr.
  destruct (returned_similarity db query_embedding (Some match_threshold)
              match_count rows r Hm Hr) as [t [Heq [_ Hs]]].
  injection Heq as <-.
  destruct Hs as [Hs | [s [_ [Hrange [a [Ha Hab]]]]]]; [exact Hs|].
  exfalso. injection Ha as <-.
  destruct match_threshold as [b| | |]; simpl in Ht; try contradiction;
    try discriminate.
  destruct (Rle_dec 1 b); [lra | discriminate].
Qed.


End MatchDocumentsMore.

(* ================================================================= *)
(** * The scripts in full *)

(* ================================================================= *)
(** ** The rows the scripts insert *)

(** The rows of the INSERT at the end of [schema.sql], lines 65-68. *)
Definition schema_sample_data : list NewResource :=
  [
  {| new_title := Some "Lester B. Pearson International Scholarship";
     new_description := Some "Full-ride scholarship for international students at University of Toronto covering tuition, books, incidental fees, and residence support.";
     new_url := Some "https://future.utoronto.ca/pearson/";
     new_category := Some "scholarship";
     new_country := None;
     new_institution := Some "University of Toronto";
     new_deadline := Some "2026-01-15";
     new_eligibility := None;
     new_amount := None;
     new_tags := Some ["full-tuition"; "undergraduate"; "high-achiever"];
     new_metadata := JNull;
     new_last_updated := None |};
  {| new_title := Some "Canada Student Visa Guide";
     new_description := Some "Complete guide to applying for Canadian study permit including required documents, processing times, and biometrics information.";
     new_url := Some "https://www.canada.ca/en/immigration-refugees-citizenship/services/study-canada.html";
     new_category := Some "visa";
     new_country := None;
     new_institution := Some "IRCC";
     new_deadline := None;
     new_eligibility := None;
     new_amount := None;
     new_tags := Some ["study-permit"; "documentation"; "official"];
     new_metadata := JNull;
     new_last_updated := None |};
  {| new_title := Some "Part-time Jobs for International Students";
     new_description := Some "International students can work up to 20 hours per week during academic sessions and full-time during breaks without a work permit.";
     new_url := Some "https://www.canada.ca/en/immigration-refugees-citizenship/services/study-canada/work.html";
     new_category := Some "job";
     new_country := None;
     new_institution := Some "IRCC";
     new_deadline := None;
     new_eligibility := None;
     new_amount := None;
     new_tags := Some ["part-time"; "work-permit"; "regulations"];
     new_metadata := JNull;
     new_last_updated := None |}
  ].

(** The rows of the first INSERT of [seed_resources.sql], lines 16-169. *)
Definition seed_scholarships : list NewResource :=
  [
  {| new_title := Some "Vanier Canada Graduate Scholarships (Vanier CGS)";
     new_description := Some "Prestigious doctoral scholarship recognizing academic excellence, research potential, and leadership. Covers all expenses for PhD studies at Canadian universities.";
     new_url := Some "https://vanier.gc.ca/en/home-accueil.html";
     new_category := Some "scholarship";
     new_country := Some (Some "Canada");
     new_institution := Some "Government of Canada";
     new_deadline := Some "2025-10-30";
     new_eligibility := Some "Canadian citizens, permanent residents, and international students pursuing first doctoral degree. Must be nominated by Canadian institution.";
     new_amount := Some "$50,000 CAD per year";
     new_tags := Some ["doctoral"; "fully-funded"; "government"; "prestigious"; "research"];
     new_metadata :=
       JObject [("duration", JString "3 years");
                ("total_awards", JString "166 annually");
                ("application_process", JString "Nomination through Canadian university, not direct application");
                ("source", JString "official");
                ("level", JString "Doctoral (PhD)");
                ("last_verified", JString "2025-11-16")];
     new_last_updated := None |};
  {| new_title := Some "Lester B. Pearson International Scholarship";
     new_description := Some "Full-ride undergraduate scholarship at University of Toronto for exceptional international students demonstrating leadership and academic achievement.";
     new_url := Some "https://future.utoronto.ca/pearson/";
     new_category := Some "scholarship";
     new_country := Some (Some "Canada");
     new_institution := Some "University of Toronto";
     new_deadline := Some "2026-01-15";
     new_eligibility := Some "International students entering first year from secondary school. Must be nominated by school. GPA 95%+";
     new_amount := Some "Full tuition + books + residence + incidental fees";
     new_tags := Some ["undergraduate"; "fully-funded"; "leadership"; "competitive"];
     new_metadata :=
       JObject [("duration", JString "4 years");
                ("total_awards", JString "37 scholarships annually");
                ("source", JString "official");
                ("level", JString "Undergraduate");
                ("last_verified", JString "2025-11-16")];
     new_last_updated := None |};
  {| new_title := Some "UBC International Scholars Program (IMES)";
     new_description := Some "Merit-based entrance scholarships for outstanding international students entering UBC from secondary school.";
     new_url := Some "https://you.ubc.ca/financial-planning/scholarships-awards-international-students/";
     new_category := Some "scholarship";
     new_country := Some (Some "Canada");
     new_institution := Some "University of British Columbia";
     new_deadline := Some "2026-01-15";
     new_eligibility := Some "International students on study permit, entering from secondary school, exceptional academics and extracurriculars";
     new_amount := Some "$10,000 - $20,000 CAD per year";
     new_tags := Some ["undergraduate"; "merit-based"; "renewable"];
     new_metadata :=
       JObject [("duration", JString "Renewable annually based on performance");
                ("source", JString "official");
                ("level", JString "Undergraduate");
                ("last_verified", JString "2025-11-16")];
     new_last_updated := None |};
  {| new_title := Some "University of Calgary International Entrance Scholarship";
     new_description := Some "Automatic consideration for international students admitted to undergraduate programs with strong academic records.";
     new_url := Some "https://www.ucalgary.ca/future-students/undergraduate/awards";
     new_category := Some "scholarship";
     new_country := Some (Some "Canada");
     new_institution := Some "University of Calgary";
     new_deadline := Some "2025-12-01";
     new_eligibility := Some "International students entering first year in Fall term, minimum 95% average";
     new_amount := Some "$15,000 renewable or $5,000-$10,000 non-renewable";
     new_tags := Some ["undergraduate"; "automatic-consideration"; "entrance"];
     new_metadata :=
       JObject [("duration", JString "1-4 years depending on award");
                ("source", JString "official");
                ("level", JString "Undergraduate");
                ("last_verified", JString "2025-11-16")];
     new_last_updated := None |};
  {| new_title := Some "Université de Montréal Exemption Scholarships";
     new_description := Some "Tuition fee exemption allowing international students to pay Quebec resident rates instead of international fees.";
     new_url := Some "https://admission.umontreal.ca/en/awards-and-aid/scholarships-and-financial-aid/exemptions/";
     new_category := Some "scholarship";
     new_country := Some (Some "Canada");
     new_institution := Some "Université de Montréal";
     new_deadline := Some "2026-02-01";
     new_eligibility := Some "International students demonstrating academic excellence, French proficiency required for some programs";
     new_amount := Some "Up to $27,300 CAD per year (tuition difference)";
     new_tags := Some ["tuition-exemption"; "multilevel"; "francophone"];
     new_metadata :=
       JObject [("duration", JString "Program duration");
                ("source", JString "official");
                ("level", JString "Undergraduate/Masters/PhD");
                ("last_verified", JString "2025-11-16")];
     new_last_updated := None |};
  {| new_title := Some "Canadian Francophonie Scholarship Program (CFSP)";
     new_description := Some "Government-funded scholarships for francophone students from developing countries pursuing graduate studies at Canadian universities.";
     new_url := Some "https://www.scholarships-bourses.gc.ca/scholarships-bourses/can/csfp-pcbf.aspx";
     new_category := Some "scholarship";
     new_country := Some (Some "Canada");
     new_institution := Some "Government of Canada";
     new_deadline := None;
     new_eligibility := Some "Citizens of francophone developing countries (Nepal qualifies), French proficiency, academic excellence";
     new_amount := Some "Full tuition + living allowance + travel";
     new_tags := Some ["graduate"; "francophone"; "developing-countries"; "fully-funded"];
     new_metadata :=
       JObject [("duration", JString "2-3 years");
                ("deadline_note", JString "Varies by institution (typically November-January)");
                ("source", JString "official");
                ("level", JString "Masters/PhD");
                ("last_verified", JString "2025-11-16")];
     new_last_updated := None |};
  {| new_title := Some "Ontario Graduate Scholarship (OGS)";
     new_description := Some "Merit-based scholarship for graduate students in Ontario universities, open to domestic and international students.";
     new_url := Some "https://osap.gov.on.ca/OSAPPortal/en/A-ZListofAid/PRDR019245.html";
     new_category := Some "scholarship";
     new_country := Some (Some "Canada");
     new_institution := Some "Ontario Universities";
     new_deadline := None;
     new_eligibility := Some "Enrolled or applying to Ontario graduate program, minimum A- average, study permit holders eligible";
     new_amount := Some "$15,000 CAD per year";
     new_tags := Some ["graduate"; "provincial"; "merit-based"];
     new_metadata :=
       JObject [("duration", JString "2-3 terms");
                ("deadline_note", JString "University-specific (typically January-March)");
                ("source", JString "official");
                ("level", JString "Masters/PhD");
                ("last_verified", JString "2025-11-16")];
     new_last_updated := None |};
  {| new_title := Some "University of Waterloo International Master's/Doctoral Awards";
     new_description := Some "Entrance scholarships for exceptional international graduate students admitted to research-based programs.";
     new_url := Some "https://uwaterloo.ca/graduate-studies-postdoctoral-affairs/awards";
     new_category := Some "scholarship";
     new_country := Some (Some "Canada");
     new_institution := Some "University of Waterloo";
     new_deadline := None;
     new_eligibility := Some "International students with exceptional academic records entering research-based graduate programs";
     new_amount := Some "$2,500-$10,000 per term";
     new_tags := Some ["graduate"; "research-based"; "tech-focus"];
     new_metadata :=
       JObject [("duration", JString "Multiple terms");
                ("deadline_note", JString "Varies by program (typically December-February)");
                ("source", JString "official");
                ("level", JString "Masters/PhD");
                ("last_verified", JString "2025-11-16")];
     new_last_updated := None |};
  {| new_title := Some "University of Winnipeg President's Scholarship for World Leaders";
     new_description := Some "Leadership-based scholarship for international students demonstrating academic excellence and community engagement.";
     new_url := Some "https://www.uwinnipeg.ca/future-student/paying-for-university/awards.html";
     new_category := Some "scholarship";
     new_country := Some (Some "Canada");
     new_institution := Some "University of Winnipeg";
     new_deadline := Some "2026-02-01";
     new_eligibility := Some "International students with leadership experience, minimum 80% average, community service";
     new_amount := Some "$5,000 CAD";
     new_tags := Some ["undergraduate"; "leadership"; "one-time"];
     new_metadata :=
       JObject [("duration", JString "1 year");
                ("source", JString "official");
                ("level", JString "Undergraduate");
                ("last_verified", JString "2025-11-16")];
     new_last_updated := None |};
  {| new_title := Some "Douglas College International Student Scholarships";
     new_description := Some "Entrance scholarships for international students beginning studies at Douglas College in undergraduate programs.";
     new_url := Some "https://www.douglascollege.ca/programs-and-courses/fees-and-finances/scholarships-and-awards";
     new_category := Some "scholarship";
     new_country := Some (Some "Canada");
     new_institution := Some "Douglas College";
     new_deadline := Some "2026-03-31";
     new_eligibility := Some "International students on study permit, minimum 80% average, 5 recipients selected annually";
     new_amount := Some "Up to $7,000 CAD";
     new_tags := Some ["undergraduate"; "college"; "limited-spots"];
     new_metadata :=
       JObject [("duration", JString "1 year");
                ("source", JString "official");
                ("level", JString "Undergraduate");
                ("last_verified", JString "2025-11-16")];
     new_last_updated := None |}
  ].

(** The rows of the second INSERT, lines 173-249. *)
Definition seed_universities : list NewResource :=
  [
  {| new_title := Some "University of Toronto - International Student Programs";
     new_description := Some "Canada's #1 ranked university offering 700+ undergraduate and 200+ graduate programs. Comprehensive support through Centre for International Experience.";
     new_url := Some "https://www.utoronto.ca/";
     new_category := Some "university";
     new_country := Some (Some "Canada");
     new_institution := Some "University of Toronto";
     new_deadline := None;
     new_eligibility := None;
     new_amount := None;
     new_tags := Some ["top-ranked"; "research-intensive"; "diverse-programs"];
     new_metadata :=
       JObject [("ranking", JString "1st in Canada, Top 25 globally");
                ("international_students", JString "25,000+");
                ("popular_programs", JArray [JString "Computer Science"; JString "Engineering"; JString "Business"; JString "Life Sciences"]);
                ("location", JString "Toronto, Ontario");
                ("tuition_range", JString "$45,000-$58,000 CAD per year");
                ("application_deadline", JString "2026-01-15");
                ("source", JString "official");
                ("last_verified", JString "2025-11-16")];
     new_last_updated := None |};
  {| new_title := Some "University of British Columbia (UBC) - International Programs";
     new_description := Some "World-renowned research university on Canada's west coast. Strong co-op programs and international student support services.";
     new_url := Some "https://www.ubc.ca/";
     new_category := Some "university";
     new_country := Some (Some "Canada");
     new_institution := Some "University of British Columbia";
     new_deadline := None;
     new_eligibility := None;
     new_amount := None;
     new_tags := Some ["research-university"; "beautiful-campus"; "co-op"];
     new_metadata :=
       JObject [("ranking", JString "2nd in Canada");
                ("international_students", JString "18,000+");
                ("popular_programs", JArray [JString "Engineering"; JString "Commerce"; JString "Computer Science"; JString "Environmental Science"]);
                ("location", JString "Vancouver, BC");
                ("tuition_range", JString "$40,000-$56,000 CAD per year");
                ("application_deadline", JString "2026-01-15");
                ("source", JString "official");
                ("last_verified", JString "2025-11-16")];
     new_last_updated := None |};
  {| new_title := Some "McGill University - International Admissions";
     new_description := Some "Premier bilingual university in Montreal with high international student population. Strong reputation for medicine and sciences.";
     new_url := Some "https://www.mcgill.ca/";
     new_category := Some "university";
     new_country := Some (Some "Canada");
     new_institution := Some "McGill University";
     new_deadline := None;
     new_eligibility := None;
     new_amount := None;
     new_tags := Some ["bilingual"; "historic"; "international-friendly"];
     new_metadata :=
       JObject [("ranking", JString "3rd in Canada");
                ("international_students", JString "12,000+ (31% of student body)");
                ("popular_programs", JArray [JString "Medicine"; JString "Law"; JString "Engineering"; JString "Arts"]);
                ("location", JString "Montreal, Quebec");
                ("tuition_range", JString "$20,000-$50,000 CAD per year");
                ("application_deadline", JString "2026-01-15");
                ("source", JString "official");
                ("last_verified", JString "2025-11-16")];
     new_last_updated := None |};
  {| new_title := Some "University of Waterloo - Co-op Programs";
     new_description := Some "Known for world's largest co-op program integrating work experience with studies. Tech and engineering powerhouse.";
     new_url := Some "https://uwaterloo.ca/";
     new_category := Some "university";
     new_country := Some (Some "Canada");
     new_institution := Some "University of Waterloo";
     new_deadline := None;
     new_eligibility := None;
     new_amount := None;
     new_tags := Some ["co-op-leader"; "tech-hub"; "innovation"];
     new_metadata :=
       JObject [("ranking", JString "5th in Canada");
                ("international_students", JString "8,000+");
                ("popular_programs", JArray [JString "Computer Science"; JString "Software Engineering"; JString "Mechatronics"; JString "Business"]);
                ("location", JString "Waterloo, Ontario");
                ("tuition_range", JString "$48,000-$63,000 CAD per year");
                ("application_deadline", JString "2026-02-01");
                ("source", JString "official");
                ("last_verified", JString "2025-11-16")];
     new_last_updated := None |};
  {| new_title := Some "University of Alberta - International Student Services";
     new_description := Some "Top research university with affordable tuition and strong STEM programs. Active international student community.";
     new_url := Some "https://www.ualberta.ca/";
     new_category := Some "university";
     new_country := Some (Some "Canada");
     new_institution := Some "University of Alberta";
     new_deadline := None;
     new_eligibility := None;
     new_amount := None;
     new_tags := Some ["affordable"; "research-intensive"; "STEM-focused"];
     new_metadata :=
       JObject [("ranking", JString "4th in Canada");
                ("international_students", JString "7,000+");
                ("popular_programs", JArray [JString "Engineering"; JString "Business"; JString "Sciences"; JString "Agriculture"]);
                ("location", JString "Edmonton, Alberta");
                ("tuition_range", JString "$28,000-$35,000 CAD per year");
                ("application_deadline", JString "2026-03-01");
                ("source", JString "official");
                ("last_verified", JString "2025-11-16")];
     new_last_updated := None |};
  {| new_title := Some "McMaster University - International Admissions";
     new_description := Some "Innovative research university known for problem-based learning and health sciences. Strong international exchange programs.";
     new_url := Some "https://www.mcmaster.ca/";
     new_category := Some "university";
     new_country := Some (Some "Canada");
     new_institution := Some "McMaster University";
     new_deadline := None;
     new_eligibility := None;
     new_amount := None;
     new_tags := Some ["health-sciences"; "research"; "innovative-learning"];
     new_metadata :=
       JObject [("ranking", JString "6th in Canada");
                ("international_students", JString "5,000+");
                ("popular_programs", JArray [JString "Health Sciences"; JString "Engineering"; JString "Business"; JString "Sciences"]);
                ("location", JString "Hamilton, Ontario");
                ("tuition_range", JString "$38,000-$50,000 CAD per year");
                ("application_deadline", JString "2026-01-16");
                ("source", JString "official");
                ("last_verified", JString "2025-11-16")];
     new_last_updated := None |}
  ].

(** The rows of the third INSERT, lines 253-312. *)
Definition seed_visa_resources : list NewResource :=
  [
  {| new_title := Some "IRCC - Study Permits Official Guide";
     new_description := Some "Official Government of Canada guide for applying to study permits, including required documents, processing times, and biometrics.";
     new_url := Some "https://www.canada.ca/en/immigration-refugees-citizenship/services/study-canada/study-permit.html";
     new_category := Some "visa";
     new_country := Some (Some "Canada");
     new_institution := None;
     new_deadline := None;
     new_eligibility := None;
     new_amount := None;
     new_tags := Some ["study-permit"; "official"; "government"; "essential"];
     new_metadata :=
       JObject [("resource_type", JString "official-guide");
                ("source", JString "official");
                ("last_verified", JString "2025-11-16")];
     new_last_updated := None |};
  {| new_title := Some "EduCanada - Study Permits and Visas";
     new_description := Some "Comprehensive resource explaining study permit requirements, PAL/TAL attestation letters, and visa application process.";
     new_url := Some "https://www.educanada.ca/study-etudes/permits-visas-permis.aspx";
     new_category := Some "visa";
     new_country := Some (Some "Canada");
     new_institution := None;
     new_deadline := None;
     new_eligibility := None;
     new_amount := None;
     new_tags := Some ["PAL"; "attestation-letter"; "requirements"];
     new_metadata :=
       JObject [("resource_type", JString "information");
                ("source", JString "official");
                ("last_verified", JString "2025-11-16")];
     new_last_updated := None |};
  {| new_title := Some "Study Permit Application Portal (IRCC Account)";
     new_description := Some "Online portal where you actually apply for your study permit. Create account and submit application with documents.";
     new_url := Some "https://www.canada.ca/en/immigration-refugees-citizenship/services/application/account.html";
     new_category := Some "visa";
     new_country := Some (Some "Canada");
     new_institution := None;
     new_deadline := None;
     new_eligibility := None;
     new_amount := None;
     new_tags := Some ["application"; "online-portal"; "essential"];
     new_metadata :=
       JObject [("resource_type", JString "application-portal");
                ("source", JString "official");
                ("last_verified", JString "2025-11-16")];
     new_last_updated := None |};
  {| new_title := Some "Designated Learning Institutions (DLI) List";
     new_description := Some "Official list of Canadian schools approved to host international students. You must be accepted to a DLI to get study permit.";
     new_url := Some "https://www.canada.ca/en/immigration-refugees-citizenship/services/study-canada/study-permit/prepare/designated-learning-institutions-list.html";
     new_category := Some "visa";
     new_country := Some (Some "Canada");
     new_institution := None;
     new_deadline := None;
     new_eligibility := None;
     new_amount := None;
     new_tags := Some ["DLI"; "approved-schools"; "verification"];
     new_metadata :=
       JObject [("resource_type", JString "reference-list");
                ("source", JString "official");
                ("last_verified", JString "2025-11-16")];
     new_last_updated := None |};
  {| new_title := Some "Processing Times for Study Permits";
     new_description := Some "Real-time processing times for study permit applications from Nepal and other countries. Updated weekly.";
     new_url := Some "https://www.canada.ca/en/immigration-refugees-citizenship/services/application/check-processing-times.html";
     new_category := Some "visa";
     new_country := Some (Some "Canada");
     new_institution := None;
     new_deadline := None;
     new_eligibility := None;
     new_amount := None;
     new_tags := Some ["processing-times"; "tracking"; "timeline"];
     new_metadata :=
       JObject [("resource_type", JString "tool");
                ("source", JString "official");
                ("last_verified", JString "2025-11-16")];
     new_last_updated := None |}
  ].

(** The rows of the fourth INSERT, lines 316-415. *)
Definition seed_job_resources : list NewResource :=
  [
  {| new_title := Some "Job Bank Canada - International Students";
     new_description := Some "Official Government of Canada job board listing opportunities open to international students and work permit holders.";
     new_url := Some "https://www.jobbank.gc.ca/";
     new_category := Some "job";
     new_country := Some (Some "Canada");
     new_institution := None;
     new_deadline := None;
     new_eligibility := None;
     new_amount := None;
     new_tags := Some ["official"; "government"; "verified-employers"];
     new_metadata :=
       JObject [("job_type", JString "full-time, part-time, co-op");
                ("source", JString "official");
                ("last_verified", JString "2025-11-16")];
     new_last_updated := None |};
  {| new_title := Some "Indeed Canada - International Student Jobs";
     new_description := Some "Popular job board with 800+ listings for international students. Filter by student-friendly, part-time, and on-campus positions.";
     new_url := Some "https://ca.indeed.com/International-Student-jobs";
     new_category := Some "job";
     new_country := Some (Some "Canada");
     new_institution := None;
     new_deadline := None;
     new_eligibility := None;
     new_amount := None;
     new_tags := Some ["job-board"; "high-volume"; "flexible"];
     new_metadata :=
       JObject [("job_type", JString "part-time, full-time");
                ("source", JString "verified");
                ("last_verified", JString "2025-11-16")];
     new_last_updated := None |};
  {| new_title := Some "LinkedIn Canada - Student & Graduate Jobs";
     new_description := Some "Professional networking platform with job listings, internships, and co-op opportunities. Build profile and network with Canadian employers.";
     new_url := Some "https://www.linkedin.com/jobs/";
     new_category := Some "job";
     new_country := Some (Some "Canada");
     new_institution := None;
     new_deadline := None;
     new_eligibility := None;
     new_amount := None;
     new_tags := Some ["networking"; "professional"; "career-building"];
     new_metadata :=
       JObject [("job_type", JString "internships, co-op, entry-level");
                ("source", JString "verified");
                ("last_verified", JString "2025-11-16")];
     new_last_updated := None |};
  {| new_title := Some "University Career Services - On-Campus Jobs";
     new_description := Some "Every Canadian university has dedicated career services offering on-campus job boards, resume help, and employer connections.";
     new_url := Some "https://www.universitystudy.ca/plan-for-university/student-life-on-campus/on-campus-jobs/";
     new_category := Some "job";
     new_country := Some (Some "Canada");
     new_institution := None;
     new_deadline := None;
     new_eligibility := None;
     new_amount := None;
     new_tags := Some ["on-campus"; "student-jobs"; "university"];
     new_metadata :=
       JObject [("job_type", JString "on-campus, work-study");
                ("source", JString "verified");
                ("last_verified", JString "2025-11-16")];
     new_last_updated := None |};
  {| new_title := Some "Ultimate Recruitment - International Student Specialists";
     new_description := Some "Recruitment agency specializing in helping international students transition from study to work in Canada with immigration support.";
     new_url := Some "https://ultimaterecruitment.ca/";
     new_category := Some "job";
     new_country := Some (Some "Canada");
     new_institution := None;
     new_deadline := None;
     new_eligibility := None;
     new_amount := None;
     new_tags := Some ["recruitment-agency"; "specialized"; "immigration-aware"];
     new_metadata :=
       JObject [("job_type", JString "permanent, contract");
                ("source", JString "verified");
                ("last_verified", JString "2025-11-16")];
     new_last_updated := None |};
  {| new_title := Some "Work Permit Rules for International Students";
     new_description := Some "Official IRCC guide on work eligibility - 20 hours/week during classes, full-time during breaks, no permit needed.";
     new_url := Some "https://www.canada.ca/en/immigration-refugees-citizenship/services/study-canada/work.html";
     new_category := Some "job";
     new_country := Some (Some "Canada");
     new_institution := None;
     new_deadline := None;
     new_eligibility := None;
     new_amount := None;
     new_tags := Some ["regulations"; "work-permit"; "official"; "essential"];
     new_metadata :=
       JObject [("resource_type", JString "guide");
                ("source", JString "official");
                ("last_verified", JString "2025-11-16")];
     new_last_updated := None |};
  {| new_title := Some "Co-op and Internship Programs";
     new_description := Some "Guide to finding co-op placements and internships through university programs, providing paid work experience during studies.";
     new_url := Some "https://www.canada.ca/en/employment-social-development/services/funding/youth-employment-skills.html";
     new_category := Some "job";
     new_country := Some (Some "Canada");
     new_institution := None;
     new_deadline := None;
     new_eligibility := None;
     new_amount := None;
     new_tags := Some ["co-op"; "internship"; "work-experience"];
     new_metadata :=
       JObject [("job_type", JString "co-op, internship");
                ("source", JString "official");
                ("last_verified", JString "2025-11-16")];
     new_last_updated := None |};
  {| new_title := Some "Post-Graduation Work Permit (PGWP) Information";
     new_description := Some "Essential information about getting work permit after graduation - up to 3 years, pathway to permanent residence.";
     new_url := Some "https://www.canada.ca/en/immigration-refugees-citizenship/services/study-canada/work/after-graduation.html";
     new_category := Some "job";
     new_country := Some (Some "Canada");
     new_institution := None;
     new_deadline := None;
     new_eligibility := None;
     new_amount := None;
     new_tags := Some ["PGWP"; "post-graduation"; "permanent-residence-pathway"];
     new_metadata :=
       JObject [("resource_type", JString "guide");
                ("source", JString "official");
                ("last_verified", JString "2025-11-16")];
     new_last_updated := None |};
  {| new_title := Some "Canadian Resume and Interview Guide";
     new_description := Some "How to format resumes for Canadian employers, cover letter writing, and interview preparation specific to Canada.";
     new_url := Some "https://www.jobbank.gc.ca/findajob/resources";
     new_category := Some "job";
     new_country := Some (Some "Canada");
     new_institution := None;
     new_deadline := None;
     new_eligibility := None;
     new_amount := None;
     new_tags := Some ["resume"; "interview-prep"; "canadian-standards"];
     new_metadata :=
       JObject [("resource_type", JString "career-guide");
                ("source", JString "official");
                ("last_verified", JString "2025-11-16")];
     new_last_updated := None |}
  ].

(** The rows of the transaction of [seed_resources.sql], in the order of
    the script. *)
Definition seed_rows : list NewResource :=
  seed_scholarships ++ seed_universities ++ seed_visa_resources
  ++ seed_job_resources.

(** An INSERT of several rows, or the INSERTs between BEGIN and COMMIT:
    each row comes with the id drawn for it, every row gets the same
    [NOW()], and when a row is rejected nothing is stored. *)
Fixpoint insert_all (now : Z) (rows : list (string * NewResource))
         (db : Database) : option Database :=
  match rows with
  | [] => Some db
  | (uuid, v) :: rest =>
      match insert_resource uuid now v db with
      | Some db' => insert_all now rest db'
      | None => None
      end
  end.

(** The INSERT of [schema.sql] on the tables it has just created. *)
Definition schema_sql (now : Z) (uuids : list string) : option Database :=
  insert_all now (combine uuids schema_sample_data) create_tables.

(** [seed_resources.sql]: step 1, then the transaction of step 2. *)
Definition seed_resources_sql (now : Z) (uuids : list string) (db : Database)
  : option Database :=
  insert_all now (combine uuids seed_rows) (seed_step1 db).

(** What the constraints of the table ask of a list of rows: every row
    has a title and a category the table accepts, and the ids are new and
    pairwise distinct. *)
Definition insertable (db : Database) (rows : list (string * NewResource)) : Prop :=
  Forall (fun p => new_title (snd p) <> None
                   /\ category_accepted db (new_category (snd p)) = true) rows
  /\ NoDup (map fst rows)
  /\ Forall (fun u => ~ In u (map id (resources db))) (map fst rows).

(* ================================================================= *)
(** ** Transactions *)

Lemma stored_id_not_fresh (uuid : string) (rows : list Resource) :
  ~ In uuid (map id rows) ->
  existsb (fun x => String.eqb (id x) uuid) rows = false.
Proof.
  intros Hn. destruct (existsb _ rows) eqn:Hf; [|reflexivity].
  exfalso. apply Hn. apply existsb_exists in Hf. destruct Hf as [x [Hin Hx]].
  apply String.eqb_eq in Hx. apply in_map_iff. now exists x.
Qed.

Lemma insert_resource_succeeds_iff (uuid : string) (now : Z) (v : NewResource)
      (db : Database) :
  insert_resource uuid now v db <> None
  <-> new_title v <> None
      /\ category_accepted db (new_category v) = true
      /\ ~ In uuid (map id (resources db)).
Proof.
  unfold insert_resource.
  destruct (new_title v) as [t|]; [|split; [congruence | tauto]].
  destruct (new_category v) as [c|];
    [|split; [congruence | simpl; intros [_ [H _]]; discriminate]].
  destruct (category_accepted db (Some c));
    [|split; [simpl; congruence | intros [_ [H _]]; discriminate]].
  destruct (existsb _ (resources db)) eqn:Hf; simpl.
  - split; [congruence|]. intros [_ [_ Hn]].
    apply stored_id_not_fresh in Hn. congruence.
  - split; [|discriminate]. intros _.
    split; [discriminate|]. split; [reflexivity|].
    now apply fresh_id_not_stored.
Qed.

Lemma category_accepted_same_check (db db' : Database) (c : option string) :
  resources_category_check db' = resources_category_check db ->
  category_accepted db' c = category_accepted db c.
Proof.
  intros H. unfold category_accepted. now rewrite H.
Qed.

Lemma insert_all_spec (now : Z) (rows : list (string * NewResource))
      (db : Database) :
  match insert_all now rows db with
  | Some db' =>
      insertable db rows
      /\ exists new,
          resources db' = resources db ++ new
          /\ map id new = map fst rows
          /\ Forall (fun r => created_at r = now) new
          /\ map (fun r => Some (category r)) new
             = map (fun p => new_category (snd p)) rows
          /\ resources_category_check db' = resources_category_check db
          /\ documents db' = documents db
  | None => ~ insertable db rows
  end.
Proof.
  revert db. induction rows as [|[u v] rest IH]; intros db; simpl.
  - split; [repeat split; constructor|].
    exists []. rewrite app_nil_r. repeat split; constructor.
  - pose proof (insert_resource_succeeds_iff u now v db) as Hiff.
    destruct (insert_resource u now v db) as [db1|] eqn:Hins.
    + assert (Hhead : new_title v <> None
                      /\ category_accepted db (new_category v) = true
                      /\ ~ In u (map id (resources db)))
        by (apply Hiff; discriminate).
      apply insert_resource_row in Hins.
      destruct Hins as [r [Hr [Hid [Hnow [Hcat [_ [_ [Hdoc Hchk]]]]]]]].
      assert (Hids : map id (resources db1) = map id (resources db) ++ [u])
        by (rewrite Hr, map_app; simpl; now rewrite Hid).
      specialize (IH db1).
      destruct (insert_all now rest db1) as [db'|].
      * destruct IH as [[Hall [Hnd Hfresh]] [new [Hres [Hnew [Ht [Hc [Hk Hd]]]]]]].
        split.
        { split; [|split].
          - constructor; [simpl; tauto|].
            eapply Forall_impl; [|exact Hall]. intros p [H1 H2].
            split; [exact H1|].
            now rewrite <- (category_accepted_same_check db db1).
          - simpl. constructor; [|exact Hnd].
            intros Hin. rewrite Forall_forall in Hfresh.
            apply (Hfresh u Hin). rewrite Hids.
            apply in_or_app. right. now left.
          - simpl. constructor; [tauto|].
            eapply Forall_impl; [|exact Hfresh]. intros u' Hu' Hin.
            apply Hu'. rewrite Hids. apply in_or_app. now left. }
        { exists (r :: new). rewrite Hres, Hr, <- app_assoc. simpl.
          split; [reflexivity|]. split; [now rewrite Hid, Hnew|].
          split; [now constructor|]. split; [now rewrite Hc, Hcat|].
          split; congruence. }
      * intros [Hall [Hnd Hfresh]]. apply IH.
        inversion Hall as [|? ? _ Hall']; subst.
        simpl in Hnd, Hfresh.
        inversion Hnd as [|? ? Hu Hnd']; subst.
        inversion Hfresh as [|? ? _ Hfresh']; subst.
        split; [|split].
        { eapply Forall_impl; [|exact Hall']. intros p [H1 H2].
          split; [exact H1|].
          now rewrite (category_accepted_same_check db db1). }
        { exact Hnd'. }
        { apply Forall_forall. intros u' Hu' Hin.
          rewrite Hids in Hin. apply in_app_or in Hin.
          destruct Hin as [Hin|[Hin|[]]].
          - rewrite Forall_forall in Hfresh'. now apply (Hfresh' u').
          - subst. contradiction. }
    + intros [Hall [_ Hfresh]].
      inversion Hall as [|? ? [H1 H2] _]; subst.
      simpl in Hfresh. inversion Hfresh as [|? ? H3 _]; subst.
      simpl in H1, H2. destruct Hiff as [_ Hiff].
      apply Hiff; [tauto | reflexivity].
Qed.

(** X12.  An INSERT of several rows and the INSERTs of a transaction are
    all-or-nothing.  Nothing is stored when some row lacks a title or has a
    category the table does not accept, or when an id is stored already or
    given twice.  When they commit, the new rows follow the stored ones in
    the order of the script, one per row given, all with the same
    [created_at]; the constraint and [documents] are as before.  (The
    conditions are those of the constraints of the table; the types of the
    columns can refuse a row for other reasons, so the conditions are
    necessary for a commit and are not claimed to be sufficient.) *)
Theorem insert_all_or_nothing (now : Z) (rows : list (string * NewResource))
        (db : Database) :
  (~ insertable db rows -> insert_all now rows db = None)
  /\ (forall db',
         insert_all now rows db = Some db' ->
         insertable db rows
         /\ exists new,
             resources db' = resources db ++ new
             /\ map id new = map fst rows
             /\ Forall (fun r => created_at r = now) new
             /\ map (fun r => Some (category r)) new
                = map (fun p => new_category (snd p)) rows
             /\ resources_category_check db' = resources_category_check db
             /\ documents db' = documents db).
Proof.
  pose proof (insert_all_spec now rows db) as H.
  destruct (insert_all now rows db) as [db1|].
  - split; [intros Hn; now destruct H|].
    intros db' Heq. injection Heq as <-. exact H.
  - split; [reflexivity | discriminate].
Qed.

(* ================================================================= *)
(** ** The seed script *)

(** Thirty ids, as [gen_random_uuid()] could draw them. *)
Definition thirty_uuids : list string :=
  [
   "7d0a1c5e-0000-4000-8000-000000000101"; "7d0a1c5e-0000-4000-8000-000000000102";
   "7d0a1c5e-0000-4000-8000-000000000103"; "7d0a1c5e-0000-4000-8000-000000000104";
   "7d0a1c5e-0000-4000-8000-000000000105"; "7d0a1c5e-0000-4000-8000-000000000106";
   "7d0a1c5e-0000-4000-8000-000000000107"; "7d0a1c5e-0000-4000-8000-000000000108";
   "7d0a1c5e-0000-4000-8000-000000000109"; "7d0a1c5e-0000-4000-8000-000000000110";
   "7d0a1c5e-0000-4000-8000-000000000111"; "7d0a1c5e-0000-4000-8000-000000000112";
   "7d0a1c5e-0000-4000-8000-000000000113"; "7d0a1c5e-0000-4000-8000-000000000114";
   "7d0a1c5e-0000-4000-8000-000000000115"; "7d0a1c5e-0000-4000-8000-000000000116";
   "7d0a1c5e-0000-4000-8000-000000000117"; "7d0a1c5e-0000-4000-8000-000000000118";
   "7d0a1c5e-0000-4000-8000-000000000119"; "7d0a1c5e-0000-4000-8000-000000000120";
   "7d0a1c5e-0000-4000-8000-000000000121"; "7d0a1c5e-0000-4000-8000-000000000122";
   "7d0a1c5e-0000-4000-8000-000000000123"; "7d0a1c5e-0000-4000-8000-000000000124";
   "7d0a1c5e-0000-4000-8000-000000000125"; "7d0a1c5e-0000-4000-8000-000000000126";
   "7d0a1c5e-0000-4000-8000-000000000127"; "7d0a1c5e-0000-4000-8000-000000000128";
   "7d0a1c5e-0000-4000-8000-000000000129"; "7d0a1c5e-0000-4000-8000-000000000130"
  ].

(** Whether a list of strings has no repetition. *)
Fixpoint distinct (l : list string) : bool :=
  match l with
  | [] => true
  | x :: l' => negb (existsb (String.eqb x) l') && distinct l'
  end.

Lemma distinct_NoDup (l : list string) : distinct l = true -> NoDup l.
Proof.
  induction l as [|x l IH]; simpl; intros H; [constructor|].
  apply andb_true_iff in H. destruct H as [Hx Hl].
  constructor; [|now apply IH].
  intros Hin. apply negb_true_iff in Hx.
  assert (Ht : existsb (String.eqb x) l = true).
  { apply existsb_exists. exists x. split; [exact Hin | apply String.eqb_refl]. }
  congruence.
Qed.

Lemma map_fst_combine {A B : Type} (l : list A) (l' : list B) :
  List.length l = List.length l' -> map fst (combine l l') = l.
Proof.
  revert l'. induction l as [|x l IH]; intros [|y l'] H; simpl in *;
    try discriminate; [reflexivity|].
  f_equal. apply IH. now injection H.
Qed.

Lemma map_snd_combine {A B : Type} (l : list A) (l' : list B) :
  List.length l = List.length l' -> map snd (combine l l') = l'.
Proof.
  revert l'. induction l as [|x l IH]; intros [|y l'] H; simpl in *;
    try discriminate; [reflexivity|].
  f_equal. apply IH. now injection H.
Qed.

Lemma seed_step1_well_formed (b : bool) (db : Database) :
  well_formed b db ->
  resources_category_check (seed_step1 db) = Some seed_categories
  /\ resources (seed_step1 db) = resources db
  /\ documents (seed_step1 db) = documents db.
Proof.
  intros [Hrows _].
  unfold seed_step1, add_constraint, drop_constraint_if_exists.
  cbn [resources_category_check resources documents].
  assert (Hall : forallb (fun r => category_in seed_categories (category r))
                   (resources db) = true).
  { apply forallb_forall. now apply Forall_forall. }
  rewrite Hall. repeat split.
Qed.

(** Every row of the seed script has a title and one of the six
    categories. *)
Lemma seed_rows_checked :
  Forall (fun v => new_title v <> None
                   /\ exists c, new_category v = Some c
                                /\ category_in seed_categories c = true)
         seed_rows.
Proof.
  assert (H : forallb (fun v => match new_title v, new_category v with
                                | Some _, Some c => category_in seed_categories c
                                | _, _ => false
                                end) seed_rows = true) by reflexivity.
  rewrite forallb_forall in H. apply Forall_forall. intros v Hv.
  specialize (H v Hv).
  destruct (new_title v); [|discriminate].
  destruct (new_category v) as [c|]; [|discriminate].
  split; [discriminate | now exists c].
Qed.

(** X13.  The seed script depends on its step 1.  From any state the
    scripts can reach, with thirty new and distinct ids, the script (step 1,
    then the transaction) commits: it adds its thirty rows after the stored
    ones, all with the same [created_at], and leaves the six-value
    constraint in force.  On a table that has not seen step 1 the same
    transaction stores nothing, because of its ['university'] rows. *)
Theorem seed_script_needs_step1 (ws : list Write) (now : Z) (uuids : list string) :
  let db := apply_writes ws create_tables in
  List.length uuids = 30%nat ->
  NoDup uuids ->
  Forall (fun u => ~ In u (map id (resources db))) uuids ->
  (exists db' new,
      seed_resources_sql now uuids db = Some db'
      /\ resources db' = resources db ++ new
      /\ map id new = uuids
      /\ map (fun r => Some (category r)) new = map new_category seed_rows
      /\ Forall (fun r => created_at r = now) new
      /\ resources_category_check db' = Some seed_categories)
  /\ (seeded ws = false ->
      insert_all now (combine uuids seed_rows) db = None).
Proof.
  cbv zeta. set (db := apply_writes ws create_tables).
  intros Hlen Hnd Hfresh.
  pose proof (apply_writes_well_formed ws false create_tables
                create_tables_well_formed) as Hwf.
  simpl in Hwf. fold db in Hwf.
  assert (Hlen' : List.length uuids = List.length seed_rows)
    by (rewrite Hlen; reflexivity).
  split.
  - destruct (seed_step1_well_formed _ _ Hwf) as [Hchk [Hres Hdoc]].
    unfold seed_resources_sql.
    pose proof (insert_all_spec now (combine uuids seed_rows) (seed_step1 db))
      as Hspec.
    assert (Hins : insertable (seed_step1 db) (combine uuids seed_rows)).
    { split; [|split].
      - apply Forall_forall. intros [u v] Hin. apply in_combine_r in Hin.
        pose proof seed_rows_checked as Hc. rewrite Forall_forall in Hc.
        destruct (Hc v Hin) as [Ht [c [Hcat Hsix]]]. simpl.
        split; [exact Ht|]. rewrite Hcat. unfold category_accepted.
        now rewrite Hchk.
      - now rewrite map_fst_combine.
      - rewrite map_fst_combine by exact Hlen'. now rewrite Hres. }
    destruct (insert_all now (combine uuids seed_rows) (seed_step1 db))
      as [db'|]; [|contradiction].
    destruct Hspec as [_ [new [H1 [H2 [H3 [H4 [H5 H6]]]]]]].
    exists db', new. split; [reflexivity|].
    split; [now rewrite H1, Hres|].
    split; [now rewrite H2, map_fst_combine|].
    split.
    { rewrite H4, <- (map_map snd new_category).
      now rewrite map_snd_combine. }
    split; [exact H3 | now rewrite H5].
  - intros Hseed.
    pose proof (insert_all_spec now (combine uuids seed_rows) db) as Hspec.
    destruct (insert_all now (combine uuids seed_rows) db) as [db'|];
      [|reflexivity].
    exfalso. destruct Hspec as [[Hall _] _].
    destruct Hwf as [_ Hchk]. rewrite Hseed in Hchk. simpl in Hchk.
    assert (Hrows : Forall (fun v => category_accepted db (new_category v) = true)
                      seed_rows).
    { rewrite <- (map_snd_combine uuids seed_rows Hlen').
      apply Forall_map. eapply Forall_impl; [|exact Hall]. now intros p [_ H]. }
    rewrite Forall_forall in Hrows.
    assert (Hin : In seed_university_of_toronto seed_rows).
    { unfold seed_rows. apply in_or_app. right. apply in_or_app. left.
      now left. }
    specialize (Hrows _ Hin). unfold category_accepted in Hrows.
    rewrite Hchk in Hrows. discriminate.
Qed.

(** X13, at an instance: the seed script on the tables as [schema.sql]
    creates them. *)
Lemma seed_script_needs_step1_example :
  List.length thirty_uuids = 30%nat
  /\ NoDup thirty_uuids
  /\ Forall (fun u => ~ In u (map id (resources (apply_writes [] create_tables))))
            thirty_uuids
  /\ ((exists db' new,
          seed_resources_sql 1763251200 thirty_uuids
            (apply_writes [] create_tables) = Some db'
          /\ resources db' = resources (apply_writes [] create_tables) ++ new
          /\ map id new = thirty_uuids
          /\ map (fun r => Some (category r)) new = map new_category seed_rows
          /\ Forall (fun r => created_at r = 1763251200%Z) new
          /\ resources_category_check db' = Some seed_categories)
      /\ (seeded [] = false ->
          insert_all 1763251200 (combine thirty_uuids seed_rows)
            (apply_writes [] create_tables) = None)).
Proof.
  assert (Hnd : NoDup thirty_uuids) by (apply distinct_NoDup; reflexivity).
  assert (Hfresh : Forall (fun u => ~ In u (map id (resources
                                        (apply_writes [] create_tables))))
                     thirty_uuids).
  { apply Forall_forall. intros u _ H. exact H. }
  split; [reflexivity|]. split; [exact Hnd|]. split; [exact Hfresh|].
  apply (seed_script_needs_step1 [] 1763251200 thirty_uuids);
    [reflexivity | exact Hnd | exact Hfresh].
Defined.

(* ================================================================= *)
(** ** Instances *)

(** [two_scholarships] after the INSERT of the first university row, a day
    later. *)
Definition with_toronto : Database :=
  apply_writes
    [Insert "7d0a1c5e-0000-4000-8000-000000000011" 1763337600
       seed_university_of_toronto]
    two_scholarships.

(** X3, at an instance: the university row inserted a day after the two
    scholarships. *)
Lemma newest_insert_listed_first_example :
  insert_resource "7d0a1c5e-0000-4000-8000-000000000011" 1763337600
    seed_university_of_toronto two_scholarships = Some with_toronto
  /\ Forall (fun x => (created_at x < 1763337600)%Z) (resources two_scholarships)
  /\ exists r,
      resources with_toronto = resources two_scholarships ++ [r]
      /\ id r = "7d0a1c5e-0000-4000-8000-000000000011"
      /\ (exists rest,
             shown (getRecentResources (E := stable_engine) None with_toronto
                      mounted) = r :: rest)
      /\ (forall limit, limit <> Some 0%nat ->
            exists rest,
              select_resources (E := stable_engine) with_toronto
                (listByCategory (Some (category r)) limit) = r :: rest).
Proof.
  assert (Hins : insert_resource "7d0a1c5e-0000-4000-8000-000000000011"
                   1763337600 seed_university_of_toronto two_scholarships
                 = Some with_toronto) by reflexivity.
  assert (Hold : Forall (fun x => (created_at x < 1763337600)%Z)
                   (resources two_scholarships))
    by (repeat constructor).
  split; [exact Hins|]. split; [exact Hold|].
  exact (newest_insert_listed_first (E := stable_engine) two_scholarships
           with_toronto "7d0a1c5e-0000-4000-8000-000000000011" 1763337600
           seed_university_of_toronto Hins Hold).
Defined.

(** X6, at an instance: the university row does not change the list of the
    scholarships page. *)
Lemma insert_of_other_category_example :
  insert_resource "7d0a1c5e-0000-4000-8000-000000000011" 1763337600
    seed_university_of_toronto two_scholarships = Some with_toronto
  /\ new_category seed_university_of_toronto <> Some "scholarship"
  /\ forall limit,
      select_resources (E := stable_engine) with_toronto
        (listByCategory (Some "scholarship") limit)
      = select_resources (E := stable_engine) two_scholarships
          (listByCategory (Some "scholarship") limit).
Proof.
  assert (Hins : insert_resource "7d0a1c5e-0000-4000-8000-000000000011"
                   1763337600 seed_university_of_toronto two_scholarships
                 = Some with_toronto) by reflexivity.
  assert (Hc : new_category seed_university_of_toronto <> Some "scholarship")
    by discriminate.
  split; [exact Hins|]. split; [exact Hc|].
  exact (insert_of_other_category (E := stable_engine) two_scholarships
           with_toronto "7d0a1c5e-0000-4000-8000-000000000011" 1763337600
           seed_university_of_toronto "scholarship" Hins Hc).
Defined.

(** X11, at an instance: threshold 1 and a stored embedding of zeros, whose
    row is returned with similarity NaN. *)
Lemma threshold_one_returns_only_nan_example :
  Float8.le (Fin 1) (Fin 1) = true
  /\ match_documents (E := stable_engine) (N := exact_numerics) zero_db
       (Some (axis 1)) (Some (Fin 1)) (Some 5%Z)
     = Some [to_match (N := exact_numerics) (axis 1) zero_document]
  /\ Forall (fun r => similarity r = NaN)
            [to_match (N := exact_numerics) (axis 1) zero_document].
Proof.
  assert (H : Float8.le (Fin 1) (Fin 1) = true).
  { simpl. destruct (Rle_dec 1 1); [reflexivity | lra]. }
  assert (Hm : match_documents (E := stable_engine) (N := exact_numerics)
                 zero_db (Some (axis 1)) (Some (Fin 1)) (Some 5%Z)
               = Some [to_match (N := exact_numerics) (axis 1) zero_document]).
  { apply (match_documents_single exact_numerics zero_document); [lia | |].
    - unfold different_dimensions, zero_document. cbn [embedding].
      now rewrite axis_length, repeat_length.
    - unfold qualifies. now rewrite similarity_of_zero. }
  split; [exact H|]. split; [exact Hm|].
  exact (threshold_one_returns_only_nan (E := stable_engine)
           (N := exact_numerics) zero_db (Some (axis 1)) (Fin 1) (Some 5%Z)
           _ H Hm).
Defined.

(* ================================================================= *)
(** * The deadline of a scholarship card *)

(** ** Dates, as ECMAScript computes them *)

Module JsDate.

Open Scope Z_scope.

Definition msPerDay : Z := 86400000.

(** [Day(t)], the day number of a time value. *)
Definition Day (t : Z) : Z := t / msPerDay.

Definition DaysInYear (y : Z) : Z :=
  if negb (y mod 4 =? 0) then 365
  else if negb (y mod 100 =? 0) then 366
  else if negb (y mod 400 =? 0) then 365
  else 366.

(** [DayFromYear(y)], the day number of the first day of year [y]. *)
Definition DayFromYear (y : Z) : Z :=
  365 * (y - 1970) + (y - 1969) / 4 - (y - 1901) / 100 + (y - 1601) / 400.

(** The year a day falls in: the largest [y] with [DayFromYear y <= d],
    found from an estimate that is off by one year at most. *)
Definition YearFromDay (d : Z) : Z :=
  let y := 1970 + (400 * d) / 146097 in
  if d <? DayFromYear y then y - 1
  else if DayFromYear (y + 1) <=? d then y + 1
  else y.

(** [InLeapYear], for a year. *)
Definition leap (y : Z) : Z := if DaysInYear y =? 366 then 1 else 0.

(** The number of days of the year before month [mn] (0 is January); 12
    stands for the end of the year. *)
Definition days_before_month (L mn : Z) : Z :=
  match mn with
  | 0 => 0
  | 1 => 31
  | 2 => 59 + L
  | 3 => 90 + L
  | 4 => 120 + L
  | 5 => 151 + L
  | 6 => 181 + L
  | 7 => 212 + L
  | 8 => 243 + L
  | 9 => 273 + L
  | 10 => 304 + L
  | 11 => 334 + L
  | _ => 365 + L
  end.

(** [MonthFromTime], for a day within a year: the table of the standard. *)
Definition month_of_day_within_year (L dw : Z) : Z :=
  if dw <? 31 then 0
  else if dw <? 59 + L then 1
  else if dw <? 90 + L then 2
  else if dw <? 120 + L then 3
  else if dw <? 151 + L then 4
  else if dw <? 181 + L then 5
  else if dw <? 212 + L then 6
  else if dw <? 243 + L then 7
  else if dw <? 273 + L then 8
  else if dw <? 304 + L then 9
  else if dw <? 334 + L then 10
  else 11.

Definition YearFromTime (t : Z) : Z := YearFromDay (Day t).

Definition DayWithinYear (t : Z) : Z := Day t - DayFromYear (YearFromTime t).

Definition MonthFromTime (t : Z) : Z :=
  month_of_day_within_year (leap (YearFromTime t)) (DayWithinYear t).

Definition DateFromTime (t : Z) : Z :=
  DayWithinYear t
  - days_before_month (leap (YearFromTime t)) (MonthFromTime t) + 1.

(** [MakeDay(year, month, date)]. *)
Definition MakeDay (year month date : Z) : Z :=
  let ym := year + month / 12 in
  let mn := month mod 12 in
  DayFromYear ym + days_before_month (leap ym) mn + date - 1.

(** [MakeDate(day, time)]. *)
Definition MakeDate (day time : Z) : Z := day * msPerDay + time.

(** The number of days of month [m] (1 is January) of year [y]. *)
Definition DaysInMonth (y m : Z) : Z :=
  days_before_month (leap y) m - days_before_month (leap y) (m - 1).

(** A date of the calendar, from year 1 on. *)
Definition valid_date (y m d : Z) : bool :=
  (1 <=? y) && (1 <=? m) && (m <=? 12) && (1 <=? d) && (d <=? DaysInMonth y m).

Definition digit (c : ascii) : option Z :=
  let n := Z.of_nat (nat_of_ascii c) - 48 in
  if (0 <=? n) && (n <=? 9) then Some n else None.

(** The date-only form [YYYY-MM-DD] of the date-time string format, which
    is what a DATE column yields for a year of four digits.  [None] for
    every other string: other forms and illegal element values are handled
    in ways that depend on the implementation. *)
Definition parse_date_only (s : string) : option (Z * Z * Z) :=
  match s with
  | String y1 (String y2 (String y3 (String y4 (String "-"
      (String m1 (String m2 (String "-"
        (String d1 (String d2 EmptyString))))))))) =>
      match digit y1, digit y2, digit y3, digit y4,
            digit m1, digit m2, digit d1, digit d2 with
      | Some a, Some b, Some c, Some e, Some f, Some g, Some h, Some i =>
          let y := 1000 * a + 100 * b + 10 * c + e in
          let m := 10 * f + g in
          let d := 10 * h + i in
          if valid_date y m d then Some (y, m, d) else None
      | _, _, _, _, _, _, _, _ => None
      end
  | _ => None
  end.

(** [Date.parse] on a date-only form: midnight UTC of that date. *)
Definition time_of_date (y m d : Z) : Z := MakeDate (MakeDay y (m - 1) d) 0.

(** The month names of the locale [en-US] ([month: 'long']). *)
Definition month_name (mn : Z) : string :=
  match mn with
  | 0 => "January"
  | 1 => "February"
  | 2 => "March"
  | 3 => "April"
  | 4 => "May"
  | 5 => "June"
  | 6 => "July"
  | 7 => "August"
  | 8 => "September"
  | 9 => "October"
  | 10 => "November"
  | _ => "December"
  end.

Definition decimal (n : Z) : string :=
  NilZero.string_of_uint (N.to_uint (Z.to_N n)).

(** The text of the locale [en-US] for year, month and day numeric, long,
    numeric: [January 15, 2026]. *)
Definition format_en_US (y m d : Z) : string :=
  (month_name (m - 1) ++ " " ++ decimal d ++ ", " ++ decimal y)%string.

(** [toLocaleDateString('en-US', { year: 'numeric', month: 'long', day:
    'numeric' })] of a time value, where [offset] is the offset of local
    time from UTC at that time, in milliseconds. *)
Definition toLocaleDateString (offset t : Z) : string :=
  let local := t + offset in
  format_en_US (YearFromTime local) (MonthFromTime local + 1)
               (DateFromTime local).

(** The day before a date. *)
Definition previous_day (y m d : Z) : Z * Z * Z :=
  if 1 <? d then (y, m, d - 1)
  else if 1 <? m then (y, m - 1, DaysInMonth y (m - 1))
  else (y - 1, 12, 31).

End JsDate.

(** What the deadline line of a card shows. *)
Inductive DeadlineLine : Type :=
| NoDeadline
| DeadlineText (text : string)
| NotDateOnly.

(** [ScholarshipGrid], lines 207-217: nothing for NULL and for the empty
    string; else the date, parsed and formatted in the time zone of the
    browser. *)
Definition deadline_line (offset : Z) (s : Resource) : DeadlineLine :=
  match deadline s with
  | None => NoDeadline
  | Some EmptyString => NoDeadline
  | Some str =>
      match JsDate.parse_date_only str with
      | Some (y, m, d) =>
          DeadlineText (JsDate.toLocaleDateString offset (JsDate.time_of_date y m d))
      | None => NotDateOnly
      end
  end.

(* ================================================================= *)
(** ** The calendar round trip *)

Section Calendar.

Import JsDate.
Open Scope Z_scope.

Lemma DaysInYear_leap (y : Z) : DaysInYear y = 365 + leap y /\ 0 <= leap y <= 1.
Proof.
  unfold leap, DaysInYear.
  destruct (negb (y mod 4 =? 0)); [simpl; lia|].
  destruct (negb (y mod 100 =? 0)); [simpl; lia|].
  destruct (negb (y mod 400 =? 0)); simpl; lia.
Qed.

Lemma DayFromYear_succ (y : Z) :
  DayFromYear (y + 1) = DayFromYear y + DaysInYear y.
Proof.
  unfold DayFromYear, DaysInYear.
  destruct (y mod 4 =? 0) eqn:H4; destruct (y mod 100 =? 0) eqn:H100;
    destruct (y mod 400 =? 0) eqn:H400; cbn [negb];
    rewrite ?Z.eqb_eq, ?Z.eqb_neq in *; Z.div_mod_to_equations; lia.
Qed.

(** [YearFromDay] finds the year whose days include [d]. *)
Lemma YearFromDay_spec (y d : Z) :
  DayFromYear y <= d < DayFromYear y + DaysInYear y -> YearFromDay d = y.
Proof.
  intros H.
  pose proof (DaysInYear_leap y) as Hy.
  pose proof (DaysInYear_leap (y - 1)) as Hp.
  pose proof (DaysInYear_leap (y + 1)) as Hn.
  pose proof (DayFromYear_succ y) as S0.
  pose proof (DayFromYear_succ (y - 1)) as S1.
  pose proof (DayFromYear_succ (y + 1)) as S2.
  replace (y - 1 + 1) with y in S1 by lia.
  assert (E : y - 1 <= 1970 + (400 * d) / 146097 <= y + 1).
  { unfold DayFromYear in H. Z.div_mod_to_equations. lia. }
  unfold YearFromDay. cbv zeta.
  set (e := 1970 + 400 * d / 146097) in *.
  assert (He : e = y - 1 \/ e = y \/ e = y + 1) by lia.
  destruct He as [->|[->| ->]].
  - replace (y - 1 + 1) with y by lia.
    destruct (Z.ltb_spec d (DayFromYear (y - 1))); [lia|].
    destruct (Z.leb_spec (DayFromYear y) d); lia.
  - destruct (Z.ltb_spec d (DayFromYear y)); [lia|].
    destruct (Z.leb_spec (DayFromYear (y + 1)) d); lia.
  - destruct (Z.ltb_spec d (DayFromYear (y + 1))); lia.
Qed.

Lemma valid_date_spec (y m d : Z) :
  valid_date y m d = true <->
  1 <= y /\ 1 <= m <= 12 /\ 1 <= d <= DaysInMonth y m.
Proof.
  unfold valid_date. rewrite !andb_true_iff, !Z.leb_le. lia.
Qed.

Ltac month_cases m :=
  let H := fresh in
  assert (H : m = 1 \/ m = 2 \/ m = 3 \/ m = 4 \/ m = 5 \/ m = 6 \/ m = 7
              \/ m = 8 \/ m = 9 \/ m = 10 \/ m = 11 \/ m = 12) by lia;
  destruct H as [->|[->|[->|[->|[->|[->|[->|[->|[->|[->|[->| ->]]]]]]]]]]].

Ltac literal_months :=
  repeat match goal with
         | |- context [Z.pos ?p - 1] =>
             let v := eval compute in (Z.pos p - 1) in
             change (Z.pos p - 1) with v
         | H : context [Z.pos ?p - 1] |- _ =>
             let v := eval compute in (Z.pos p - 1) in
             change (Z.pos p - 1) with v in H
         end.

(** The day number of a date, its offset within the year, and the way
    back to the date. *)
Lemma MakeDay_within_year (y m d : Z) :
  1 <= m <= 12 -> 1 <= d <= DaysInMonth y m ->
  MakeDay y (m - 1) d = DayFromYear y + (days_before_month (leap y) (m - 1) + d - 1)
  /\ 0 <= days_before_month (leap y) (m - 1) + d - 1 < DaysInYear y
  /\ month_of_day_within_year (leap y)
       (days_before_month (leap y) (m - 1) + d - 1) = m - 1.
Proof.
  intros Hm Hd. pose proof (DaysInYear_leap y) as [Hdays HL].
  unfold MakeDay. cbv zeta.
  assert (Hq : (m - 1) / 12 = 0) by (apply Z.div_small; lia).
  assert (Hr : (m - 1) mod 12 = m - 1) by (apply Z.mod_small; lia).
  rewrite Hq, Hr, Z.add_0_r. unfold DaysInMonth in Hd. rewrite Hdays.
  set (L := leap y) in *. clearbody L.
  split; [lia|].
  month_cases m; literal_months; unfold month_of_day_within_year;
    cbn [days_before_month] in *;
    (split; [lia|]);
    repeat match goal with
           | |- context [?a <? ?b] => destruct (Z.ltb_spec a b); try lia
           end.
Qed.

Lemma date_round_trip (y m d : Z) :
  1 <= m <= 12 -> 1 <= d <= DaysInMonth y m ->
  forall t,
    Day t = MakeDay y (m - 1) d ->
    YearFromTime t = y /\ MonthFromTime t = m - 1 /\ DateFromTime t = d.
Proof.
  intros Hm Hd t Ht.
  destruct (MakeDay_within_year y m d Hm Hd) as [Hday [Hrange Hmonth]].
  assert (Hy : YearFromTime t = y).
  { unfold YearFromTime. rewrite Ht, Hday. apply YearFromDay_spec. lia. }
  assert (Hw : DayWithinYear t = days_before_month (leap y) (m - 1) + d - 1).
  { unfold DayWithinYear. rewrite Hy, Ht, Hday. lia. }
  assert (Hmo : MonthFromTime t = m - 1).
  { unfold MonthFromTime. now rewrite Hy, Hw. }
  split; [exact Hy|]. split; [exact Hmo|].
  unfold DateFromTime. rewrite Hy, Hw, Hmo. lia.
Qed.

Lemma DaysInMonth_range (y m : Z) :
  1 <= m <= 12 -> 28 <= DaysInMonth y m <= 31.
Proof.
  intros Hm. pose proof (DaysInYear_leap y) as [_ HL].
  unfold DaysInMonth. set (L := leap y) in *. clearbody L.
  month_cases m; literal_months; cbn [days_before_month]; lia.
Qed.

(** The day before a date is a date, one day earlier. *)
Lemma previous_day_spec (y m d : Z) :
  1 <= m <= 12 -> 1 <= d <= DaysInMonth y m ->
  let '(y', m', d') := previous_day y m d in
  1 <= m' <= 12 /\ 1 <= d' <= DaysInMonth y' m'
  /\ MakeDay y' (m' - 1) d' = MakeDay y (m - 1) d - 1
  /\ (y', m', d') <> (y, m, d).
Proof.
  intros Hm Hd. unfold previous_day.
  destruct (Z.ltb_spec 1 d) as [Hd1|Hd1].
  - split; [lia|]. split; [lia|]. split.
    + destruct (MakeDay_within_year y m d Hm Hd) as [-> _].
      assert (Hd' : 1 <= d - 1 <= DaysInMonth y m) by lia.
      destruct (MakeDay_within_year y m (d - 1) Hm Hd') as [-> _]. lia.
    + intros H. injection H. lia.
  - assert (d = 1) by lia. subst d.
    destruct (Z.ltb_spec 1 m) as [Hm1|Hm1].
    + assert (Hm' : 1 <= m - 1 <= 12) by lia.
      pose proof (DaysInMonth_range y (m - 1) Hm') as Hr.
      split; [lia|]. split; [lia|]. split.
      * assert (Hd' : 1 <= DaysInMonth y (m - 1) <= DaysInMonth y (m - 1)) by lia.
        destruct (MakeDay_within_year y m 1 Hm Hd) as [-> _].
        destruct (MakeDay_within_year y (m - 1) _ Hm' Hd') as [-> _].
        unfold DaysInMonth. lia.
      * intros H. injection H. lia.
    + assert (m = 1) by lia. subst m.
      pose proof (DaysInYear_leap (y - 1)) as [Hdays HL].
      pose proof (DayFromYear_succ (y - 1)) as Hs.
      replace (y - 1 + 1) with y in Hs by lia.
      assert (H12 : 1 <= 12 <= 12) by lia.
      assert (H31 : 1 <= 31 <= DaysInMonth (y - 1) 12).
      { unfold DaysInMonth. literal_months. cbn [days_before_month]. lia. }
      split; [lia|]. split; [exact H31|]. split.
      * destruct (MakeDay_within_year y 1 1 Hm Hd) as [-> _].
        destruct (MakeDay_within_year (y - 1) 12 31 H12 H31) as [-> _].
        literal_months. cbn [days_before_month]. lia.
      * intros H. injection H. lia.
Qed.

Lemma Day_of_local_time (day offset : Z) :
  (0 <= offset < msPerDay -> Day (MakeDate day 0 + offset) = day)
  /\ (- msPerDay <= offset < 0 -> Day (MakeDate day 0 + offset) = day - 1).
Proof.
  unfold Day, MakeDate, msPerDay. split; intros H; Z.div_mod_to_equations; lia.
Qed.

End Calendar.

(* ================================================================= *)
(** ** The deadline line *)

Lemma parse_date_only_valid (str : string) (y m d : Z) :
  JsDate.parse_date_only str = Some (y, m, d) ->
  JsDate.valid_date y m d = true /\ str <> "".
Proof.
  intros H. split; [|intros ->; discriminate].
  unfold JsDate.parse_date_only in H.
  repeat match type of H with
         | context [if JsDate.valid_date ?a ?b ?c then _ else _] =>
             destruct (JsDate.valid_date a b c) eqn:Hv; [|discriminate]
         | context [match ?x with _ => _ end] => destruct x; try discriminate
         end.
  injection H as <- <- <-. exact Hv.
Qed.

(** X14.  The deadline of a card is the stored date only east of
    Greenwich.  For a deadline that is a date [y-m-d], the card shows that
    date when the browser's local time is at or ahead of UTC (by less than a
    day), and the day before when local time is behind UTC. *)
Theorem deadline_line_by_offset (s : Resource) (str : string) (y m d offset : Z) :
  deadline s = Some str ->
  JsDate.parse_date_only str = Some (y, m, d) ->
  ((0 <= offset < JsDate.msPerDay)%Z ->
   deadline_line offset s = DeadlineText (JsDate.format_en_US y m d))
  /\ ((- JsDate.msPerDay <= offset < 0)%Z -> (1 < y)%Z ->
      let '(y', m', d') := JsDate.previous_day y m d in
      deadline_line offset s = DeadlineText (JsDate.format_en_US y' m' d')
      /\ (y', m', d') <> (y, m, d)).
Proof.
  intros Hs Hp.
  destruct (parse_date_only_valid str y m d Hp) as [Hv Hne].
  apply valid_date_spec in Hv. destruct Hv as [Hy [Hm Hd]].
  assert (Hline : forall offset,
             deadline_line offset s
             = DeadlineText (JsDate.toLocaleDateString offset
                               (JsDate.time_of_date y m d))).
  { intros o. unfold deadline_line. rewrite Hs.
    destruct str as [|a str']; [contradiction|]. now rewrite Hp. }
  destruct (Day_of_local_time (JsDate.MakeDay y (m - 1) d) offset) as [Hpos Hneg].
  split.
  - intros Ho. rewrite Hline. unfold JsDate.toLocaleDateString. cbv zeta.
    destruct (date_round_trip y m d Hm Hd
                (JsDate.time_of_date y m d + offset)%Z (Hpos Ho))
      as [-> [-> ->]].
    now replace (m - 1 + 1)%Z with m by lia.
  - intros Ho Hy1.
    pose proof (previous_day_spec y m d Hm Hd) as Hprev.
    destruct (JsDate.previous_day y m d) as [[y' m'] d'].
    destruct Hprev as [Hm' [Hd' [Hday Hdiff]]].
    split; [|exact Hdiff].
    rewrite Hline. unfold JsDate.toLocaleDateString. cbv zeta.
    assert (Ht : JsDate.Day (JsDate.time_of_date y m d + offset)
                 = JsDate.MakeDay y' (m' - 1) d')
      by (rewrite Hday; exact (Hneg Ho)).
    destruct (date_round_trip y' m' d' Hm' Hd' _ Ht) as [-> [-> ->]].
    now replace (m' - 1 + 1)%Z with m' by lia.
Qed.

(** The Pearson row of the seed script as it is stored. *)
Definition pearson_row : Resource :=
  {| id := "7d0a1c5e-0000-4000-8000-000000000002";
     title := "Lester B. Pearson International Scholarship";
     description := new_description seed_pearson;
     url := new_url seed_pearson;
     category := "scholarship";
     country := Some "Canada";
     institution := new_institution seed_pearson;
     deadline := new_deadline seed_pearson;
     eligibility := new_eligibility seed_pearson;
     amount := new_amount seed_pearson;
     tags := new_tags seed_pearson;
     last_updated := Some 1763251200%Z;
     created_at := 1763251200;
     metadata := new_metadata seed_pearson |}.

(** X14, at an instance: the Pearson deadline, 2026-01-15, in Kathmandu
    (UTC+5:45) and in Toronto (UTC-5). *)
Lemma deadline_line_by_offset_example :
  In pearson_row (resources two_scholarships)
  /\ deadline pearson_row = Some "2026-01-15"
  /\ JsDate.parse_date_only "2026-01-15" = Some (2026, 1, 15)%Z
  /\ deadline_line 20700000 pearson_row = DeadlineText "January 15, 2026"
  /\ deadline_line (-18000000) pearson_row = DeadlineText "January 14, 2026".
Proof.
  assert (Hd : deadline pearson_row = Some "2026-01-15") by reflexivity.
  assert (Hp : JsDate.parse_date_only "2026-01-15" = Some (2026, 1, 15)%Z)
    by reflexivity.
  destruct (deadline_line_by_offset pearson_row "2026-01-15" 2026 1 15
              20700000 Hd Hp) as [Heast _].
  destruct (deadline_line_by_offset pearson_row "2026-01-15" 2026 1 15
              (-18000000) Hd Hp) as [_ Hwest].
  split; [right; left; reflexivity|].
  split; [exact Hd|]. split; [exact Hp|]. split.
  - apply Heast. unfold JsDate.msPerDay. lia.
  - apply Hwest; unfold JsDate.msPerDay; lia.
Defined.

(* ================================================================= *)
(** ** Step 1 of the seed script, run again *)

(** X15.  Step 1 of the seed script can be run again at any time.  In every
    state the scripts can reach it keeps the rows and [documents], leaves
    the six-value constraint in force, accepts every category that was
    accepted before it, and running it a second time changes nothing. *)
Theorem seed_step1_rerun (ws : list Write) :
  let db := apply_writes ws create_tables in
  resources (seed_step1 db) = resources db
  /\ documents (seed_step1 db) = documents db
  /\ resources_category_check (seed_step1 db) = Some seed_categories
  /\ (forall c, category_accepted db c = true ->
                category_accepted (seed_step1 db) c = true)
  /\ seed_step1 (seed_step1 db) = seed_step1 db
  /\ (seeded ws = true -> seed_step1 db = db).
Proof.
  cbv zeta. set (db := apply_writes ws create_tables).
  pose proof (apply_writes_well_formed ws false create_tables
                create_tables_well_formed) as Hwf.
  simpl in Hwf. fold db in Hwf.
  destruct (seed_step1_well_formed _ _ Hwf) as [Hchk [Hres Hdoc]].
  assert (Hwf1 : well_formed true (seed_step1 db)).
  { destruct Hwf as [Hrows _]. split; [now rewrite Hres | exact Hchk]. }
  destruct (seed_step1_well_formed _ _ Hwf1) as [Hchk2 [Hres2 Hdoc2]].
  assert (Heq : forall a b : Database,
             resources_category_check a = resources_category_check b ->
             resources a = resources b -> documents a = documents b -> a = b).
  { intros [a1 a2 a3] [b1 b2 b3]. simpl. intros -> -> ->. reflexivity. }
  split; [exact Hres|]. split; [exact Hdoc|]. split; [exact Hchk|].
  split; [|split].
  - intros [c|] Hc; [|discriminate].
    unfold category_accepted in *. rewrite Hchk.
    destruct Hwf as [_ Hk]. rewrite Hk in Hc.
    destruct (seeded ws); simpl in Hc;
      [exact Hc | now apply schema_categories_in_seed].
  - apply Heq; congruence.
  - intros Hs. destruct Hwf as [_ Hk]. rewrite Hs in Hk. simpl in Hk.
    apply Heq; congruence.
Qed.

(* ================================================================= *)
(** * Rows of equal [created_at] under LIMIT *)

(* ================================================================= *)
(** ** PostgreSQL's sort with a bound *)

(** With a LIMIT, once more rows than twice the limit have been read,
    PostgreSQL's sort ([tuplesort.c]) keeps the rows that can still be
    returned in a binary heap of [bound] rows, the last of them in sort
    order at the root, and drops each further row unless it sorts before the
    root.  At the end it empties the heap from the root, filling the array
    from its end.  The functions below are those of [tuplesort.c]; the array
    [memtuples] is a list, of the positions of the rows in the input and
    their keys. *)

Section BoundedHeapsort.

Context {K : Type} {Ord : SortKey K}.

Definition SortTuple : Type := (nat * K)%type.

(** The comparison of two rows for ORDER BY key DESC: negative when [a]
    sorts before [b], zero when the keys are equal. *)
Definition comparetup (a b : SortTuple) : Z :=
  if key_le (snd a) (snd b)
  then if key_le (snd b) (snd a) then 0 else 1
  else (-1).

(** The comparison while the heap is in use: the sort direction is
    reversed. *)
Definition COMPARETUP (a b : SortTuple) : Z := (- comparetup a b)%Z.

(** [memtuples[i] = x]. *)
Fixpoint array_set (memtuples : list SortTuple) (i : nat) (x : SortTuple)
  : list SortTuple :=
  match memtuples, i with
  | [], _ => []
  | _ :: rest, O => x :: rest
  | y :: rest, S i' => y :: array_set rest i' x
  end.

(** The loop of [tuplesort_heap_insert]: [while (j > 0) { i = (j - 1) >> 1;
    if (COMPARETUP(tuple, memtuples[i]) >= 0) break; memtuples[j] =
    memtuples[i]; j = i; } memtuples[j] = *tuple]. *)
Fixpoint sift_up (fuel : nat) (tuple : SortTuple) (j : nat)
         (memtuples : list SortTuple) : list SortTuple :=
  match fuel, j with
  | S fuel', S _ =>
      let i := Nat.div2 (j - 1) in
      if (COMPARETUP tuple (nth i memtuples tuple) >=? 0)%Z
      then array_set memtuples j tuple
      else sift_up fuel' tuple i (array_set memtuples j (nth i memtuples tuple))
  | _, _ => array_set memtuples j tuple
  end.

(** [tuplesort_heap_insert]: the heap grows by one slot, [j =
    memtupcount++]. *)
Definition tuplesort_heap_insert (tuple : SortTuple) (heap : list SortTuple)
  : list SortTuple :=
  sift_up (List.length heap) tuple (List.length heap) (heap ++ [tuple]).

(** The loop of [tuplesort_heap_replace_top], [n] being [memtupcount]:
    [for (;;) { j = 2 * i + 1; if (j >= n) break; if (j + 1 < n &&
    COMPARETUP(memtuples[j], memtuples[j + 1]) > 0) j++; if
    (COMPARETUP(tuple, memtuples[j]) <= 0) break; memtuples[i] =
    memtuples[j]; i = j; } memtuples[i] = *tuple]. *)
Fixpoint sift_down (fuel : nat) (tuple : SortTuple) (i : nat)
         (memtuples : list SortTuple) : list SortTuple :=
  match fuel with
  | O => array_set memtuples i tuple
  | S fuel' =>
      let n := List.length memtuples in
      let j := (2 * i + 1)%nat in
      if (n <=? j)%nat then array_set memtuples i tuple
      else
        let j :=
          if (j + 1 <? n)%nat
             && (COMPARETUP (nth j memtuples tuple)
                            (nth (j + 1) memtuples tuple) >? 0)%Z
          then (j + 1)%nat else j in
        if (COMPARETUP tuple (nth j memtuples tuple) <=? 0)%Z
        then array_set memtuples i tuple
        else sift_down fuel' tuple j
               (array_set memtuples i (nth j memtuples tuple))
  end.

Definition tuplesort_heap_replace_top (tuple : SortTuple)
           (heap : list SortTuple) : list SortTuple :=
  sift_down (List.length heap) tuple 0 heap.

(** [tuplesort_heap_delete_top]: [if (--memtupcount <= 0) return; tuple =
    &memtuples[memtupcount]; tuplesort_heap_replace_top(state, tuple)]. *)
Definition tuplesort_heap_delete_top (heap : list SortTuple) : list SortTuple :=
  match rev heap with
  | [] => []
  | last :: front =>
      match front with
      | [] => []
      | _ :: _ => tuplesort_heap_replace_top last (rev front)
      end
  end.

(** A row arrives, in [make_bounded_heap] and then in
    [tuplesort_puttuple_common]: it is inserted while the heap has fewer
    than [bound] rows; afterwards it is dropped when [COMPARETUP(tuple,
    memtuples[0]) <= 0] and replaces the root otherwise. *)
Definition puttuple (bound : nat) (heap : list SortTuple) (tuple : SortTuple)
  : list SortTuple :=
  if (List.length heap <? bound)%nat then tuplesort_heap_insert tuple heap
  else
    match heap with
    | [] => heap
    | top :: _ =>
        if (COMPARETUP tuple top <=? 0)%Z then heap
        else tuplesort_heap_replace_top tuple heap
    end.

(** [sort_bounded_heap]: [while (memtupcount > 1) { stup = memtuples[0];
    tuplesort_heap_delete_top(state); memtuples[memtupcount] = stup; }];
    [sorted] is the part of the array behind the heap. *)
Fixpoint sort_bounded_heap (fuel : nat) (heap sorted : list SortTuple)
  : list SortTuple :=
  match fuel, heap with
  | S fuel', stup :: _ :: _ =>
      sort_bounded_heap fuel' (tuplesort_heap_delete_top heap) (stup :: sorted)
  | _, _ => heap ++ sorted
  end.

(** The rows a sort with [bound] returns, first row first. *)
Definition bounded_heapsort (bound : nat) (input : list SortTuple)
  : list SortTuple :=
  let heap := fold_left (puttuple bound) input [] in
  sort_bounded_heap (List.length heap) heap [].

End BoundedHeapsort.

(** The rows of [l] at the given positions. *)
Definition rows_at {A : Type} (l : list A) (positions : list nat) : list A :=
  flat_map (fun i => match nth_error l i with
                     | Some x => [x]
                     | None => []
                     end) positions.

Fixpoint descendingb {A K : Type} `{SortKey K} (key : A -> K) (l : list A) : bool :=
  match l with
  | [] => true
  | x :: l' => forallb (fun y => key_le (key y) (key x)) l' && descendingb key l'
  end.

Fixpoint distinct_positions (l : list nat) : bool :=
  match l with
  | [] => true
  | i :: l' => negb (existsb (Nat.eqb i) l') && distinct_positions l'
  end.

(** ORDER BY key DESC with PostgreSQL's bounded heapsort where PostgreSQL
    uses it: the sort has a bound and the input has more rows than twice the
    bound.  The rows the heapsort returns come first; the rows it dropped
    follow, and a query with that LIMIT never returns them.  The answer of
    the heapsort is checked to be an answer to ORDER BY, which spares the
    proof that the heap is one.  Elsewhere PostgreSQL runs its quicksort,
    which is not transcribed: the order is that of a stable sort, as the
    quicksort gives for fewer than seven rows and for rows already in
    order. *)
Definition heapsort_order {A K : Type} `{SortKey K} (bound : option nat)
           (key : A -> K) (l : list A) : list A :=
  let stable := insertion_sort past_greater key l in
  match bound with
  | Some n =>
      if (2 * n <? List.length l)%nat
      then
        let top :=
          map fst (bounded_heapsort n
                     (combine (seq 0 (List.length l)) (map key l))) in
        let dropped :=
          filter (fun i => negb (existsb (Nat.eqb i) top))
                 (seq 0 (List.length l)) in
        let answer :=
          rows_at l top ++ insertion_sort past_greater key (rows_at l dropped) in
        if distinct_positions top
           && forallb (fun i => (i <? List.length l)%nat) top
           && descendingb key answer
        then answer
        else stable
      else stable
  | None => stable
  end.

(** The database after [schema.sql] and then [seed_resources.sql], run a day
    apart. *)
Definition schema_then_seed : option Database :=
  match schema_sql 1763164800
          ["7d0a1c5e-0000-4000-8000-000000000001";
           "7d0a1c5e-0000-4000-8000-000000000002";
           "7d0a1c5e-0000-4000-8000-000000000003"] with
  | Some db => seed_resources_sql 1763251200 thirty_uuids db
  | None => None
  end.

Definition seeded_database : Database :=
  match schema_then_seed with
  | Some db => db
  | None => create_tables
  end.

Lemma descendingb_spec {A K : Type} {S : SortKey K} (key : A -> K) (l : list A) :
  descendingb key l = true -> descending key l.
Proof.
  unfold descending. induction l as [|x l IH]; simpl; intros H.
  - constructor.
  - apply andb_true_iff in H. destruct H as [Hx Hl].
    constructor; [now apply IH|].
    apply Forall_forall. intros y Hy. rewrite forallb_forall in Hx. now apply Hx.
Qed.

Lemma distinct_positions_NoDup (l : list nat) :
  distinct_positions l = true -> NoDup l.
Proof.
  induction l as [|i l IH]; simpl; intros H; [constructor|].
  apply andb_true_iff in H. destruct H as [Hi Hl].
  constructor; [|now apply IH].
  intros Hin. apply negb_true_iff in Hi.
  assert (Hex : existsb (Nat.eqb i) l = true).
  { apply existsb_exists. exists i. split; [exact Hin | apply Nat.eqb_refl]. }
  congruence.
Qed.

Lemma rows_at_seq {A : Type} (front l : list A) :
  rows_at (front ++ l) (seq (List.length front) (List.length l)) = l.
Proof.
  revert front. induction l as [|x l IH]; intros front; [reflexivity|].
  cbn [List.length seq rows_at flat_map].
  rewrite nth_error_app2, Nat.sub_diag by lia. cbn [nth_error app].
  f_equal.
  specialize (IH (front ++ [x])).
  rewrite <- app_assoc, length_app in IH. cbn [List.length app] in IH.
  rewrite Nat.add_1_r in IH. exact IH.
Qed.

Lemma heapsort_order_perm {A K : Type} {S : SortKey K} (bound : option nat)
      (key : A -> K) (l : list A) :
  Permutation (heapsort_order bound key l) l.
Proof.
  unfold heapsort_order.
  destruct bound as [n|]; [|apply insertion_sort_perm].
  destruct (2 * n <? List.length l)%nat; [|apply insertion_sort_perm].
  set (top := map fst _).
  set (dropped := filter _ _).
  destruct (distinct_positions top
            && forallb (fun i => (i <? List.length l)%nat) top
            && descendingb key _) eqn:Hc; [|apply insertion_sort_perm].
  apply andb_true_iff in Hc. destruct Hc as [Hc _].
  apply andb_true_iff in Hc. destruct Hc as [Hd Hr].
  apply distinct_positions_NoDup in Hd. rewrite forallb_forall in Hr.
  rewrite insertion_sort_perm.
  change (Permutation (rows_at l top ++ rows_at l dropped) l).
  transitivity (rows_at l (seq 0 (List.length l)));
    [|pose proof (rows_at_seq [] l) as Hall; cbn [app List.length] in Hall;
      rewrite Hall; reflexivity].
  unfold rows_at. rewrite <- flat_map_app.
  apply Permutation_flat_map.
  apply NoDup_Permutation.
  - apply NoDup_app; [exact Hd | apply NoDup_filter, seq_NoDup |].
    intros i Hi Hdrop. apply filter_In in Hdrop. destruct Hdrop as [_ Hn].
    apply negb_true_iff in Hn.
    assert (Hex : existsb (Nat.eqb i) top = true).
    { apply existsb_exists. exists i. split; [exact Hi | apply Nat.eqb_refl]. }
    congruence.
  - apply seq_NoDup.
  - intros i. rewrite in_app_iff, in_seq. unfold dropped.
    rewrite filter_In, in_seq. split.
    + intros [Hi | [Hi _]]; [|exact Hi].
      specialize (Hr i Hi). apply Nat.ltb_lt in Hr. lia.
    + intros Hi. destruct (existsb (Nat.eqb i) top) eqn:Hex.
      * left. apply existsb_exists in Hex. destruct Hex as [j [Hj Hij]].
        apply Nat.eqb_eq in Hij. now subst.
      * right. split; [exact Hi | reflexivity].
Qed.

Lemma heapsort_order_sorted {A K : Type} {S : SortKey K} (bound : option nat)
      (key : A -> K) (l : list A) :
  descending key (heapsort_order bound key l).
Proof.
  assert (Hstable : descending key (insertion_sort past_greater key l)).
  { apply insertion_sort_sorted;
      [apply past_greater_true | apply past_greater_false]. }
  unfold heapsort_order.
  destruct bound as [n|]; [|exact Hstable].
  destruct (2 * n <? List.length l)%nat; [|exact Hstable].
  set (top := map fst _).
  set (dropped := filter _ _).
  destruct (distinct_positions top
            && forallb (fun i => (i <? List.length l)%nat) top
            && descendingb key _) eqn:Hc; [|exact Hstable].
  apply andb_true_iff in Hc. destruct Hc as [_ Hs].
  now apply descendingb_spec.
Qed.

(** An engine that sorts under LIMIT as PostgreSQL does. *)
Definition top_n_heapsort_engine : SqlEngine :=
  {| order_by_desc := fun A K S bound key l => heapsort_order bound key l;
     order_by_desc_perm := fun A K S bound key l =>
       heapsort_order_perm bound key l;
     order_by_desc_sorted := fun A K S bound key l =>
       heapsort_order_sorted bound key l |}.

(* ================================================================= *)
(** ** The home page after the seed script *)

(** C6, counterexample.  The database is what [schema.sql] and then
    [seed_resources.sql] leave: 33 rows, the thirty of the seed script with
    the same [created_at], since the script inserts them in one transaction.
    The home page asks for the six newest.  Sorting with a bound of six,
    PostgreSQL returns six of the seed rows, newest first as all of them
    are, and two of them in the reverse of the order of their insertion. *)
Lemma ties_not_in_insertion_order :
  schema_then_seed = Some seeded_database
  /\ List.length (resources seeded_database) = 33%nat
  /\ List.length (shown (getRecentResources (E := top_n_heapsort_engine)
                           None seeded_database mounted)) = 6%nat
  /\ newest_first (shown (getRecentResources (E := top_n_heapsort_engine)
                            None seeded_database mounted))
  /\ (exists i j x y,
         nth_error (shown (getRecentResources (E := top_n_heapsort_engine)
                             None seeded_database mounted)) i = Some x
         /\ nth_error (shown (getRecentResources (E := top_n_heapsort_engine)
                                None seeded_database mounted)) j = Some y
         /\ (i < j)%nat
         /\ created_at x = created_at y
         /\ (place (id y) (resources seeded_database)
             < place (id x) (resources seeded_database))%nat)
  /\ ~ ties_in_insertion_order
         (resources seeded_database)
         (shown (getRecentResources (E := top_n_heapsort_engine)
                   None seeded_database mounted)).
Proof.
  assert (Hpair : exists i j x y,
             nth_error (shown (getRecentResources (E := top_n_heapsort_engine)
                                 None seeded_database mounted)) i = Some x
             /\ nth_error (shown (getRecentResources (E := top_n_heapsort_engine)
                                    None seeded_database mounted)) j = Some y
             /\ (i < j)%nat
             /\ created_at x = created_at y
             /\ (place (id y) (resources seeded_database)
                 < place (id x) (resources seeded_database))%nat).
  { exists 0%nat, 2%nat. eexists. eexists.
    split; [vm_compute; reflexivity|]. split; [vm_compute; reflexivity|].
    split; [lia|]. split; [reflexivity|]. vm_compute. lia. }
  split; [vm_compute; reflexivity|]. split; [vm_compute; reflexivity|].
  split; [vm_compute; reflexivity|].
  split; [now apply (select_resources_newest_first (E := top_n_heapsort_engine))|].
  split; [exact Hpair|].
  intros Hties. destruct Hpair as [i [j [x [y [Hx [Hy [Hij [Ht Hplace]]]]]]]].
  assert (H := Hties i j x y Hx Hy Hij Ht). lia.
Qed.
